(** * delta-storage/sdk: the capability-scoped storage client

    A shallow embedding of [src/index.ts] (the [DeltaStorageSDK] class) and
    [src/file.ts] (the stand-alone file operations), followed by the
    properties of the authorization gate, the credential codec and the
    requests the resource operations build.

    Conventions.
    - A JavaScript [number] holding a scope or a mask is an integer-valued
      double, an infinity or [NaN]; the integer-valued ones are written as
      [Z], [-0] being identified with [0] (they are [===] and have the same
      32-bit image).
    - A JavaScript string is written as a [string] holding its UTF-8 bytes.
      Every separator and digit the code looks at is an ASCII character, and
      UTF-8 never uses an ASCII byte inside a longer sequence.
    - An [async] method is a state transformer that returns how its promise
      settles; the state carries the client object, its socket, the requests
      handed to the HTTP client, the user callbacks invoked, the refreshes
      that closures registered on the socket are still awaiting, and the
      rejections of those closures, which no handler receives. *)

From Stdlib Require Import ZArith Bool List Ascii String Lia.
Import ListNotations.

Local Open Scope list_scope.
Local Open Scope string_scope.
Local Open Scope Z_scope.

(** ** JavaScript numbers and the 32-bit bitwise operators *)

Inductive number : Type :=
| NaN
| Infinity (negative : bool)
| Num (z : Z).

(** [ToInt32]: the value modulo 2^32, read as a signed 32-bit integer;
    [NaN] and the infinities give 0. *)
Definition ToInt32 (n : number) : Z :=
  match n with
  | Num z => (z + 2 ^ 31) mod 2 ^ 32 - 2 ^ 31
  | NaN | Infinity _ => 0
  end.

(** [a & b] *)
Definition bitand (a b : number) : number :=
  Num (Z.land (ToInt32 a) (ToInt32 b)).

(** [a | b] *)
Definition bitor (a b : number) : number :=
  Num (Z.lor (ToInt32 a) (ToInt32 b)).

(** [a === b] on numbers: [NaN] equals nothing, itself included. *)
Definition strict_eq (a b : number) : bool :=
  match a, b with
  | Num x, Num y => x =? y
  | Infinity s, Infinity t => Bool.eqb s t
  | _, _ => false
  end.

(** The double nearest to a mathematical integer (ties to even), an infinity
    past the largest double. *)
Definition Number_of_mathint (z : Z) : number :=
  let a := Z.abs z in
  let len := Z.log2 a + 1 in
  if len <=? 53 then Num z
  else
    let sh := len - 53 in
    let q := Z.shiftr a sh in
    let r := a - Z.shiftl q sh in
    let half := Z.shiftl 1 (sh - 1) in
    let q' := if (half <? r) || ((r =? half) && Z.odd q) then q + 1 else q in
    let v := Z.shiftl q' sh in
    if 2 ^ 1024 <=? v then Infinity (z <? 0) else Num (Z.sgn z * v).

(** Bit [i] of a number as the bitwise operators of an allow-list see it:
    two's complement for an integer, no bit at all for [NaN] and the
    infinities. *)
Definition bit_set (n : number) (i : Z) : bool :=
  match n with
  | Num z => Z.testbit z i
  | NaN | Infinity _ => false
  end.

(** ** JavaScript values that cross the HTTP client *)

#[local] Set Warnings "-register-all".

Inductive jsval : Type :=
| JUndefined
| JNull
| JBoolean (b : bool)
| JNumber (n : number)
| JBigInt (z : Z)
| JString (s : string)
| JArray (items : list jsval)
| JObject (props : list (string * jsval)).

Inductive error : Type :=
| Error (message : string)
| TypeError (message : string)
| TransportFailure (reason : jsval).

(** How a promise settles. *)
Inductive settled (A : Type) : Type :=
| Fulfilled (a : A)
| Rejected (e : error).
Arguments Fulfilled {A} a.
Arguments Rejected {A} e.

Fixpoint own_property (key : string) (props : list (string * jsval)) : jsval :=
  match props with
  | [] => JUndefined
  | (k, v) :: rest => if String.eqb k key then v else own_property key rest
  end.

(** [v.key]: reading a property of [undefined] or [null] throws; a primitive
    or an array has no such own property. *)
Definition get_property (v : jsval) (key : string) : settled jsval :=
  match v with
  | JUndefined => Rejected (TypeError "Cannot read properties of undefined")
  | JNull => Rejected (TypeError "Cannot read properties of null")
  | JObject props => Fulfilled (own_property key props)
  | _ => Fulfilled JUndefined
  end.

(** ** Strings *)

Definition code (c : ascii) : Z := Z.of_N (N_of_ascii c).

(** [s.split(sep)] for a one-character separator. *)
Fixpoint split (sep : ascii) (s : string) : list string :=
  match s with
  | EmptyString => [EmptyString]
  | String c r =>
      if Ascii.eqb c sep then EmptyString :: split sep r
      else match split sep r with
           | h :: t => String c h :: t
           | [] => [String c EmptyString]
           end
  end.

(** [items.join(sep)] *)
Fixpoint join (sep : string) (items : list string) : string :=
  match items with
  | [] => EmptyString
  | [x] => x
  | x :: rest => x ++ sep ++ join sep rest
  end.

Fixpoint last_char (s : string) : option ascii :=
  match s with
  | EmptyString => None
  | String c EmptyString => Some c
  | String _ r => last_char r
  end.

Fixpoint drop_last (s : string) : string :=
  match s with
  | EmptyString => EmptyString
  | String _ EmptyString => EmptyString
  | String c r => String c (drop_last r)
  end.

(** [s.slice(-1) === '/' ? s.slice(0, -1) : s] *)
Definition strip_trailing_slash (s : string) : string :=
  match last_char s with
  | Some c => if Ascii.eqb c "/" then drop_last s else s
  | None => s
  end.

(** [String(v)] for an optional string: a missing one reads "undefined". *)
Definition ToString (v : option string) : string :=
  match v with
  | Some s => s
  | None => "undefined"
  end.

(** [v ?? ''] *)
Definition or_empty (v : option string) : string :=
  match v with
  | Some s => s
  | None => EmptyString
  end.

(** *** parseInt *)

Definition ascii_white_space (c : ascii) : bool :=
  let n := code c in
  ((9 <=? n) && (n <=? 13)) || (n =? 32).

(** U+00A0 *)
Definition white_space2 (c1 c2 : ascii) : bool :=
  (code c1 =? 194) && (code c2 =? 160).

(** U+1680, U+2000..U+200A, U+2028, U+2029, U+202F, U+205F, U+3000, U+FEFF *)
Definition white_space3 (c1 c2 c3 : ascii) : bool :=
  let a := code c1 in
  let b := code c2 in
  let c := code c3 in
  ((a =? 225) && (b =? 154) && (c =? 128))
  || ((a =? 226) && (b =? 128)
      && (((128 <=? c) && (c <=? 138)) || (c =? 168) || (c =? 169) || (c =? 175)))
  || ((a =? 226) && (b =? 129) && (c =? 159))
  || ((a =? 227) && (b =? 128) && (c =? 128))
  || ((a =? 239) && (b =? 187) && (c =? 191)).

Fixpoint trim_start (s : string) : string :=
  match s with
  | EmptyString => s
  | String c1 r1 =>
      if ascii_white_space c1 then trim_start r1
      else match r1 with
           | EmptyString => s
           | String c2 r2 =>
               if white_space2 c1 c2 then trim_start r2
               else match r2 with
                    | EmptyString => s
                    | String c3 r3 =>
                        if white_space3 c1 c2 c3 then trim_start r3 else s
                    end
           end
  end.

Definition digit_value (radix : Z) (c : ascii) : option Z :=
  let n := code c in
  let v := if (48 <=? n) && (n <=? 57) then n - 48
           else if (97 <=? n) && (n <=? 122) then n - 87
           else if (65 <=? n) && (n <=? 90) then n - 55
           else 36 in
  if v <? radix then Some v else None.

(** The value of the longest prefix of radix digits; [None] when it is empty. *)
Fixpoint leading_digits (radix : Z) (s : string) (acc : option Z) : option Z :=
  match s with
  | EmptyString => acc
  | String c r =>
      match digit_value radix c with
      | Some d =>
          leading_digits radix r
            (Some (radix * match acc with Some a => a | None => 0 end + d))
      | None => acc
      end
  end.

Definition strip_sign (s : string) : Z * string :=
  match s with
  | String "-" r => (-1, r)
  | String "+" r => (1, r)
  | _ => (1, s)
  end.

Definition hex_prefix (s : string) : option string :=
  match s with
  | String "0" (String "x" r) => Some r
  | String "0" (String "X" r) => Some r
  | _ => None
  end.

(** [parseInt(s, radix)]; [radix = None] is the call with one argument. *)
Definition parseInt (s : string) (radix : option Z) : number :=
  let '(sign, body) := strip_sign (trim_start s) in
  let R := match radix with
           | Some r => ToInt32 (Num r)
           | None => 0
           end in
  if negb (R =? 0) && ((R <? 2) || (36 <? R)) then NaN
  else
    let strip := (R =? 0) || (R =? 16) in
    let R := if R =? 0 then 10 else R in
    let '(R, body) := match (if strip then hex_prefix body else None) with
                      | Some rest => (16, rest)
                      | None => (R, body)
                      end in
    match leading_digits R body None with
    | None => NaN
    | Some m => Number_of_mathint (sign * m)
    end.

(** *** JSON.stringify of an array of strings *)

Definition hex_digit (n : Z) : ascii :=
  ascii_of_N (Z.to_N (if n <? 10 then 48 + n else 87 + n)).

Definition backslash : ascii := ascii_of_N 92.
Definition double_quote : ascii := ascii_of_N 34.

Definition escape (c : ascii) : string :=
  String backslash (String c EmptyString).

Definition quote_char (c : ascii) : string :=
  let n := code c in
  if n =? 8 then escape "b"
  else if n =? 9 then escape "t"
  else if n =? 10 then escape "n"
  else if n =? 12 then escape "f"
  else if n =? 13 then escape "r"
  else if n =? 34 then escape c
  else if n =? 92 then escape c
  else if n <? 32 then
    escape "u" ++ "00"
    ++ String (hex_digit (n / 16)) (String (hex_digit (n mod 16)) EmptyString)
  else String c EmptyString.

Fixpoint quote_chars (s : string) : string :=
  match s with
  | EmptyString => EmptyString
  | String c r => quote_char c ++ quote_chars r
  end.

Definition QuoteJSONString (s : string) : string :=
  String double_quote (quote_chars s ++ String double_quote EmptyString).

Definition JSON_stringify (items : list string) : string :=
  "[" ++ join "," (map QuoteJSONString items) ++ "]".

(** ** The HTTP client and the event channel, as the client sees them *)

Inductive Method : Type := GET | POST | PUT | DELETE.

(** What [FormData] keeps of an appended value: a [Blob] stays binary,
    anything else is stored as its string. *)
Inductive FormDataEntryValue : Type :=
| Text (s : string)
| Blob (content : string).

Definition FormData : Type := list (string * FormDataEntryValue).

(** [formData.append(name, value)] *)
Definition append (name : string) (value : FormDataEntryValue) (f : FormData)
  : FormData :=
  (f ++ [(name, value)])%list.

Inductive payload : Type :=
| NoData
| JsonData (v : jsval)
| MultipartData (f : FormData).

Record request : Type := {
  method : Method;
  url : string;
  body : payload;
  headers : list (string * string)
}.

Record AxiosResponse : Type := {
  data : jsval;
  status : Z
}.

(** A function handed to the client by its caller, named by a number; the
    model records each invocation with its argument. *)
Definition callback : Type := nat.

(** The functions registered on the socket for [directory:change]: the
    caller's own, or one of the closures the client builds around it. *)
Inductive listener_fn : Type :=
| Callback (cb : callback)
| TotalSizeChange (cb : callback)
| ReadDirectoryEvent (id : string) (onChange : callback)
| ReadDirectorySegmentChange (segments : string) (onChange : callback).

Record Socket : Type := {
  uri : string;
  auth_token : string;
  connected : bool;
  directory_change : list listener_fn;
  emitted : list string
}.

(** [io(uri, { auth: { token }, autoConnect: false })] *)
Definition io (uri token : string) : Socket :=
  {| uri := uri; auth_token := token; connected := false;
     directory_change := []; emitted := [] |}.

(** ** The client object *)

Record DeltaStorageConfig : Type := { config_apiKey : string }.

(** The fields of a [DeltaStorageSDK] instance; [listener] is the [Socket]
    of the state below. [edgeToken] is [None] when the key has no fifth
    field (the destructuring leaves it [undefined]). *)
Record DeltaStorageSDK : Type := {
  apiKey : string;
  scope : number;
  host : string;
  edgeToken : option string
}.

(** [awaited] holds, for each closure that has started a refresh and is
    suspended at its [await], the caller's function it will call and how the
    awaited promise settles; [unhandled] holds the errors with which such
    closures ended: their promises are returned to the socket, which drops
    them, so a rejection reaches no handler. *)
Record World : Type := {
  this : DeltaStorageSDK;
  listener : Socket;
  network : list request;
  invoked : list (callback * jsval);
  awaited : list (callback * settled jsval);
  unhandled : list error
}.

(** [constructor(config)]; [NODE_ENV] is [process.env.NODE_ENV]. A missing
    second field reaches [parseInt] as [undefined]. *)
Definition constructor (NODE_ENV : option string) (config : DeltaStorageConfig)
  : World :=
  let fields := split "." (config_apiKey config) in
  let scope := nth_error fields 1 in
  let _edgeToken := nth_error fields 4 in
  let host := match NODE_ENV with
              | Some env => if String.eqb env "development"
                            then "http://localhost:1337"
                            else "https://api.delta.storage"
              | None => "https://api.delta.storage"
              end in
  let host := strip_trailing_slash host in
  {| this := {| apiKey := config_apiKey config;
                scope := parseInt (ToString scope) None;
                host := host;
                edgeToken := _edgeToken |};
     listener := io host (config_apiKey config);
     network := [];
     invoked := [];
     awaited := [];
     unhandled := [] |}.

(** ** Asynchronous methods *)

Definition M (A : Type) : Type := World -> World * settled A.

Definition ret {A : Type} (a : A) : M A := fun w => (w, Fulfilled a).

Definition throw {A : Type} (e : error) : M A := fun w => (w, Rejected e).

Definition bind {A B : Type} (m : M A) (k : A -> M B) : M B :=
  fun w =>
    match m w with
    | (w', Fulfilled a) => k a w'
    | (w', Rejected e) => (w', Rejected e)
    end.

Notation "x <- m ;; k" := (bind m (fun x => k))
  (at level 61, m at next level, right associativity).
Notation "m ;; k" := (bind m (fun _ => k))
  (at level 61, right associativity).

Definition get_this : M DeltaStorageSDK := fun w => (w, Fulfilled (this w)).

Definition lift {A : Type} (r : settled A) : M A := fun w => (w, r).

Definition sent (req : request) (w : World) : World :=
  {| this := this w; listener := listener w;
     network := (network w ++ [req])%list; invoked := invoked w;
     awaited := awaited w; unhandled := unhandled w |}.

Definition with_listener (f : Socket -> Socket) : M unit :=
  fun w =>
    ({| this := this w; listener := f (listener w);
        network := network w; invoked := invoked w;
        awaited := awaited w; unhandled := unhandled w |}, Fulfilled tt).

Definition invoke (cb : callback) (arg : jsval) (w : World) : World :=
  {| this := this w; listener := listener w;
     network := network w; invoked := (invoked w ++ [(cb, arg)])%list;
     awaited := awaited w; unhandled := unhandled w |}.

(** A closure suspends at [await promise], to go on with [cb] later. *)
Definition await_then (cb : callback) (promise : settled jsval) (w : World)
  : World :=
  {| this := this w; listener := listener w;
     network := network w; invoked := invoked w;
     awaited := (awaited w ++ [(cb, promise)])%list;
     unhandled := unhandled w |}.

(** A promise nobody handles rejects with [e]. *)
Definition unhandled_rejection (e : error) (w : World) : World :=
  {| this := this w; listener := listener w;
     network := network w; invoked := invoked w;
     awaited := awaited w;
     unhandled := (unhandled w ++ [e])%list |}.

(** The closure at position [i] of [awaited] leaves the list. *)
Definition resumed (i : nat) (w : World) : World :=
  {| this := this w; listener := listener w;
     network := network w; invoked := invoked w;
     awaited := (firstn i (awaited w) ++ skipn (S i) (awaited w))%list;
     unhandled := unhandled w |}.

(** [(await promise).data], as a promise. *)
Definition response_data (promise : settled AxiosResponse) : settled jsval :=
  match promise with
  | Fulfilled res => Fulfilled (data res)
  | Rejected e => Rejected e
  end.

(** ** The authorization gate ([index.ts], lines 9-22) *)

Definition isCommandAllowed (scope flag : number) : bool :=
  if strict_eq scope (Num 0) then true
  else strict_eq (bitand scope flag) flag.

Definition verifyAuthorizedCommand (scope flag : number) (message : option string)
  : M unit :=
  let message := match message with
                 | Some m => m
                 | None => "Operation is not allowed."
                 end in
  if negb (isCommandAllowed scope flag) then throw (Error message)
  else ret tt.

(** Modelled from the spec: [./constants] is not among the sources; its
    [OPERATION_SCOPE] table is a parameter of every operation. The spec
    (section 3) has one bit per granted capability, which
    [distinct_capability_bits] states for the six capabilities the
    operations name, within the 32 bits the bitwise operators keep. *)
Record OperationScope : Type := {
  READ_FILE : number;
  UPLOAD_FILE : number;
  DELETE_FILE : number;
  READ_DIRECTORY : number;
  CREATE_DIRECTORY : number;
  DELETE_DIRECTORY : number
}.

Definition capability_bit (n : number) : bool :=
  match n with
  | Num z => (0 <? z) && (z <? 2 ^ 32) && (z =? 2 ^ Z.log2 z)
  | _ => false
  end.

Fixpoint all_distinct (l : list number) : bool :=
  match l with
  | [] => true
  | x :: rest => negb (existsb (strict_eq x) rest) && all_distinct rest
  end.

Definition capabilities (T : OperationScope) : list number :=
  [READ_FILE T; UPLOAD_FILE T; DELETE_FILE T;
   READ_DIRECTORY T; CREATE_DIRECTORY T; DELETE_DIRECTORY T].

Definition distinct_capability_bits (T : OperationScope) : bool :=
  forallb capability_bit (capabilities T) && all_distinct (capabilities T).

(** [{ headers: { Authorization: `Bearer ${this.apiKey}` } }] *)
Definition bearer (self : DeltaStorageSDK) : list (string * string) :=
  [("Authorization", "Bearer " ++ apiKey self)].

Definition optional_string (v : option string) : jsval :=
  match v with
  | Some s => JString s
  | None => JUndefined
  end.

Definition string_array (l : list string) : jsval := JArray (map JString l).

Definition optional_string_array (v : option (list string)) : jsval :=
  match v with
  | Some l => string_array l
  | None => JUndefined
  end.

(** ** [index.ts]: the methods of [DeltaStorageSDK] *)

Module Index.
Section Methods.

Variable OPERATION_SCOPE : OperationScope.
(** The HTTP client's answer to a request, given the requests made before. *)
Variable adapter : list request -> request -> settled AxiosResponse.

Definition axios (req : request) : M AxiosResponse :=
  fun w => (sent req w, adapter (network w) req).

Definition readFile (id : option string) : M AxiosResponse :=
  self <- get_this ;;
  verifyAuthorizedCommand (scope self) (READ_FILE OPERATION_SCOPE)
    (Some "READ_FILE is not allowed.") ;;
  axios {| method := GET;
           url := host self ++ "/api/files/" ++ or_empty id;
           body := NoData;
           headers := bearer self |}.

Definition uploadFile (name : string) (file : FormDataEntryValue)
    (collectionName directoryId : string) : M AxiosResponse :=
  self <- get_this ;;
  verifyAuthorizedCommand (scope self) (UPLOAD_FILE OPERATION_SCOPE)
    (Some "UPLOAD_FILE is not allowed.") ;;
  let formData : FormData := [] in
  let formData := append "name" (Text name) formData in
  let formData := append "file" file formData in
  let formData := append "collectionName" (Text collectionName) formData in
  let formData := append "directoryId" (Text directoryId) formData in
  let formData := append "edgeToken" (Text (ToString (edgeToken self))) formData in
  axios {| method := POST;
           url := host self ++ "/api/files/upload";
           body := MultipartData formData;
           headers := bearer self |}.

Definition deleteFile (id : string) : M AxiosResponse :=
  self <- get_this ;;
  verifyAuthorizedCommand (scope self) (DELETE_FILE OPERATION_SCOPE)
    (Some "DELETE_FILE is not allowed.") ;;
  axios {| method := DELETE;
           url := host self ++ "/api/files/" ++ id;
           body := NoData;
           headers := bearer self |}.

Definition renameFile (id name : string) : M AxiosResponse :=
  self <- get_this ;;
  verifyAuthorizedCommand (scope self)
    (bitor (UPLOAD_FILE OPERATION_SCOPE) (DELETE_FILE OPERATION_SCOPE))
    (Some "RENAME_FILE is not allowed.") ;;
  axios {| method := PUT;
           url := host self ++ "/api/files/" ++ id;
           body := JsonData (JObject [("name", JString name)]);
           headers := bearer self |}.

Definition readDirectory (id : option string) : M AxiosResponse :=
  self <- get_this ;;
  verifyAuthorizedCommand (scope self) (READ_DIRECTORY OPERATION_SCOPE)
    (Some "READ_DIRECTORY is not allowed.") ;;
  axios {| method := GET;
           url := host self ++ "/api/directory/" ++ or_empty id;
           body := NoData;
           headers := bearer self |}.

Definition readDirectoryBySegment (segments : string) : M AxiosResponse :=
  self <- get_this ;;
  verifyAuthorizedCommand (scope self) (READ_DIRECTORY OPERATION_SCOPE)
    (Some "READ_DIRECTORY is not allowed.") ;;
  let query := join "&segment=" (split "/" segments) in
  axios {| method := GET;
           url := host self ++ "/api/directory?segment=" ++ query;
           body := NoData;
           headers := bearer self |}.

Definition createDirectory (name : string) (parentDirectoryId : option string)
  : M AxiosResponse :=
  self <- get_this ;;
  verifyAuthorizedCommand (scope self) (CREATE_DIRECTORY OPERATION_SCOPE)
    (Some "CREATE_DIRECTORY is not allowed.") ;;
  axios {| method := POST;
           url := host self ++ "/api/directory/create";
           body := JsonData
                     (JObject [("name", JString name);
                               ("parentDirectoryId",
                                optional_string parentDirectoryId)]);
           headers := bearer self |}.

Definition renameDirectory (id name : string) : M AxiosResponse :=
  self <- get_this ;;
  verifyAuthorizedCommand (scope self)
    (bitor (CREATE_DIRECTORY OPERATION_SCOPE) (DELETE_DIRECTORY OPERATION_SCOPE))
    (Some "UPDATE_DIRECTORY is not allowed.") ;;
  axios {| method := PUT;
           url := host self ++ "/api/directory/" ++ id;
           body := JsonData (JObject [("name", JString name)]);
           headers := bearer self |}.

Definition move (parentId : string) (childrenIds : list string)
    (childrenFileIds : option (list string)) : M AxiosResponse :=
  self <- get_this ;;
  verifyAuthorizedCommand (scope self)
    (bitor (CREATE_DIRECTORY OPERATION_SCOPE) (DELETE_DIRECTORY OPERATION_SCOPE))
    (Some "UPDATE_DIRECTORY is not allowed.") ;;
  axios {| method := PUT;
           url := host self ++ "/api/directory/" ++ parentId;
           body := JsonData
                     (JObject [("move", string_array childrenIds);
                               ("moveFiles",
                                optional_string_array childrenFileIds)]);
           headers := bearer self |}.

Definition deleteDirectory (id : string) : M AxiosResponse :=
  self <- get_this ;;
  verifyAuthorizedCommand (scope self) (DELETE_DIRECTORY OPERATION_SCOPE)
    (Some "DELETE_DIRECTORY is not allowed.") ;;
  axios {| method := DELETE;
           url := host self ++ "/api/directory/" ++ id;
           body := NoData;
           headers := bearer self |}.

Definition getTotalSize : M jsval :=
  self <- get_this ;;
  result <- axios {| method := GET;
                     url := host self ++ "/api/total-size";
                     body := NoData;
                     headers := bearer self |} ;;
  lift (get_property (data result) "totalSize").

Definition readDirectorySize (id : string) : M jsval :=
  self <- get_this ;;
  result <- axios {| method := GET;
                     url := host self ++ "/api/directory/" ++ id ++ "/size";
                     body := NoData;
                     headers := bearer self |} ;;
  lift (get_property (data result) "totalSize").

(** *** Listeners *)

Definition connect : M unit :=
  with_listener (fun s =>
    {| uri := uri s; auth_token := auth_token s; connected := true;
       directory_change := directory_change s; emitted := emitted s |}).

Definition disconnect : M unit :=
  with_listener (fun s =>
    {| uri := uri s; auth_token := auth_token s; connected := false;
       directory_change := directory_change s; emitted := emitted s |}).

(** [this.listener.off('directory:change')] *)
Definition disconnectReadDirectoryEvent : M unit :=
  with_listener (fun s =>
    {| uri := uri s; auth_token := auth_token s; connected := connected s;
       directory_change := []; emitted := emitted s |}).

(** [this.listener.on('directory:change', callback)] *)
Definition onDirectoryChange (fn : listener_fn) : M unit :=
  with_listener (fun s =>
    {| uri := uri s; auth_token := auth_token s; connected := connected s;
       directory_change := (directory_change s ++ [fn])%list;
       emitted := emitted s |}).

Definition emit (event : string) : M unit :=
  with_listener (fun s =>
    {| uri := uri s; auth_token := auth_token s; connected := connected s;
       directory_change := directory_change s;
       emitted := (emitted s ++ [event])%list |}).

Definition onTotalSizeChange (cb : callback) : M unit :=
  onDirectoryChange (TotalSizeChange cb).

Definition onReadDirectoryEvent (id : string) (onChange : callback) : M unit :=
  emit "directory:initialize" ;;
  onDirectoryChange (ReadDirectoryEvent id onChange).

Definition onReadDirectorySegmentChange (segments : string) (onChange : callback)
  : M unit :=
  onDirectoryChange (ReadDirectorySegmentChange segments onChange).

(** What a registered function does while the socket emits
    [directory:change] with [payload]: a caller's function is called with
    the payload; a closure runs up to its [await], which starts the refresh
    (the gate, then the request), and is suspended there. *)
Definition run_listener (payload : jsval) (fn : listener_fn) (w : World)
  : World :=
  match fn with
  | Callback cb => invoke cb payload w
  | TotalSizeChange cb =>
      let '(w', totalSize) := getTotalSize w in
      await_then cb totalSize w'
  | ReadDirectoryEvent id onChange =>
      let '(w', res) := readDirectory (Some id) w in
      await_then onChange (response_data res) w'
  | ReadDirectorySegmentChange segments onChange =>
      let '(w', res) := readDirectoryBySegment segments w in
      await_then onChange (response_data res) w'
  end.

(** The server's [directory:change] reaching a connected socket: every
    function registered at that moment runs as above, in registration
    order. *)
Definition directory_change_event (payload : jsval) (w : World) : World :=
  if connected (listener w)
  then fold_left (fun w fn => run_listener payload fn w)
                 (directory_change (listener w)) w
  else w.

(** A suspended closure goes on, the awaited promise being settled: with a
    value it calls the caller's function; with an error the closure's own
    promise rejects, and nobody handles it. Which closure goes on first is
    not the client's choice: [i] is its position in [awaited]. *)
Definition resume (i : nat) (w : World) : World :=
  match nth_error (awaited w) i with
  | Some (cb, Fulfilled value) => invoke cb value (resumed i w)
  | Some (cb, Rejected e) => unhandled_rejection e (resumed i w)
  | None => w
  end.

End Methods.
End Index.

(** ** [file.ts]: the file operations as functions of [this]

    [file.ts] imports [verifyAuthorizedCommand] from [./authorization], which
    is not among the sources; the function of that name in [index.ts] stands
    for it. *)

Module File.
Section Functions.

Variable OPERATION_SCOPE : OperationScope.
Variable adapter : list request -> request -> settled AxiosResponse.

Definition axios (req : request) : M AxiosResponse :=
  fun w => (sent req w, adapter (network w) req).

Definition readFile (id : option string) : M AxiosResponse :=
  self <- get_this ;;
  verifyAuthorizedCommand (scope self) (READ_FILE OPERATION_SCOPE)
    (Some "READ_FILE is not allowed.") ;;
  axios {| method := GET;
           url := host self ++ "/files/" ++ or_empty id;
           body := NoData;
           headers := bearer self |}.

(** [storageClasses && storageClasses.length > 0] *)
Definition supplied (storageClasses : option (list string)) : bool :=
  match storageClasses with
  | Some (_ :: _) => true
  | _ => false
  end.

Definition uploadFile (name : string) (file : FormDataEntryValue)
    (collectionName directoryId : string)
    (storageClasses : option (list string)) : M AxiosResponse :=
  self <- get_this ;;
  verifyAuthorizedCommand (scope self) (UPLOAD_FILE OPERATION_SCOPE)
    (Some "UPLOAD_FILE is not allowed.") ;;
  let formData : FormData := [] in
  let formData := append "name" (Text name) formData in
  let formData := append "file" file formData in
  let formData := append "collectionName" (Text collectionName) formData in
  let formData := append "directoryId" (Text directoryId) formData in
  let formData :=
    if supplied storageClasses
    then append "storageClasses"
           (Text (JSON_stringify (match storageClasses with
                                  | Some l => l
                                  | None => []
                                  end))) formData
    else formData in
  axios {| method := POST;
           url := host self ++ "/files/upload";
           body := MultipartData formData;
           headers := bearer self |}.

Definition deleteFile (id : string) : M AxiosResponse :=
  self <- get_this ;;
  verifyAuthorizedCommand (scope self) (DELETE_FILE OPERATION_SCOPE)
    (Some "DELETE_FILE is not allowed.") ;;
  axios {| method := DELETE;
           url := host self ++ "/files/" ++ id;
           body := NoData;
           headers := bearer self |}.

Definition renameFile (id name : string) : M AxiosResponse :=
  self <- get_this ;;
  verifyAuthorizedCommand (scope self)
    (bitor (UPLOAD_FILE OPERATION_SCOPE) (DELETE_FILE OPERATION_SCOPE))
    (Some "RENAME_FILE is not allowed.") ;;
  axios {| method := PUT;
           url := host self ++ "/files/" ++ id;
           body := JsonData (JObject [("name", JString name)]);
           headers := bearer self |}.

Definition updateFile (id : string) (name : option string)
    (storageClasses : option (list string)) : M AxiosResponse :=
  self <- get_this ;;
  verifyAuthorizedCommand (scope self)
    (bitor (UPLOAD_FILE OPERATION_SCOPE) (DELETE_FILE OPERATION_SCOPE))
    (Some "UPDATE_FILE is not allowed.") ;;
  axios {| method := PUT;
           url := host self ++ "/files/" ++ id;
           body := JsonData
                     (JObject [("name", optional_string name);
                               ("storageClasses",
                                optional_string_array storageClasses)]);
           headers := bearer self |}.

End Functions.
End File.

(** ** The resource operations, by name

    One constructor per operation and argument list, so that a property can
    be stated of all of them and of any sequence of calls. *)

Inductive scoped_call : Type :=
| Index_readFile (id : option string)
| Index_uploadFile (name : string) (file : FormDataEntryValue)
    (collectionName directoryId : string)
| Index_deleteFile (id : string)
| Index_renameFile (id name : string)
| Index_readDirectory (id : option string)
| Index_readDirectoryBySegment (segments : string)
| Index_createDirectory (name : string) (parentDirectoryId : option string)
| Index_renameDirectory (id name : string)
| Index_move (parentId : string) (childrenIds : list string)
    (childrenFileIds : option (list string))
| Index_deleteDirectory (id : string)
| File_readFile (id : option string)
| File_uploadFile (name : string) (file : FormDataEntryValue)
    (collectionName directoryId : string) (storageClasses : option (list string))
| File_deleteFile (id : string)
| File_renameFile (id name : string)
| File_updateFile (id : string) (name : option string)
    (storageClasses : option (list string)).

Inductive unscoped_call : Type :=
| Index_getTotalSize
| Index_readDirectorySize (id : string).

Inductive listener_call : Type :=
| Index_connect
| Index_disconnect
| Index_disconnectReadDirectoryEvent
| Index_onDirectoryChange (cb : callback)
| Index_onTotalSizeChange (cb : callback)
| Index_onReadDirectoryEvent (id : string) (onChange : callback)
| Index_onReadDirectorySegmentChange (segments : string) (onChange : callback).

(** What can happen to a client after its construction: a call of one of its
    methods, a [directory:change] pushed by the server, or a suspended
    closure going on. *)
Inductive event : Type :=
| Scoped (c : scoped_call)
| Unscoped (c : unscoped_call)
| Listener (c : listener_call)
| DirectoryChange (payload : jsval)
| Resume (i : nat).

Section Calls.

Variable OPERATION_SCOPE : OperationScope.
Variable adapter : list request -> request -> settled AxiosResponse.

Definition call (c : scoped_call) : M AxiosResponse :=
  match c with
  | Index_readFile id => Index.readFile OPERATION_SCOPE adapter id
  | Index_uploadFile name file collectionName directoryId =>
      Index.uploadFile OPERATION_SCOPE adapter name file collectionName directoryId
  | Index_deleteFile id => Index.deleteFile OPERATION_SCOPE adapter id
  | Index_renameFile id name => Index.renameFile OPERATION_SCOPE adapter id name
  | Index_readDirectory id => Index.readDirectory OPERATION_SCOPE adapter id
  | Index_readDirectoryBySegment segments =>
      Index.readDirectoryBySegment OPERATION_SCOPE adapter segments
  | Index_createDirectory name parentDirectoryId =>
      Index.createDirectory OPERATION_SCOPE adapter name parentDirectoryId
  | Index_renameDirectory id name =>
      Index.renameDirectory OPERATION_SCOPE adapter id name
  | Index_move parentId childrenIds childrenFileIds =>
      Index.move OPERATION_SCOPE adapter parentId childrenIds childrenFileIds
  | Index_deleteDirectory id => Index.deleteDirectory OPERATION_SCOPE adapter id
  | File_readFile id => File.readFile OPERATION_SCOPE adapter id
  | File_uploadFile name file collectionName directoryId storageClasses =>
      File.uploadFile OPERATION_SCOPE adapter name file collectionName
        directoryId storageClasses
  | File_deleteFile id => File.deleteFile OPERATION_SCOPE adapter id
  | File_renameFile id name => File.renameFile OPERATION_SCOPE adapter id name
  | File_updateFile id name storageClasses =>
      File.updateFile OPERATION_SCOPE adapter id name storageClasses
  end.

Definition call_unscoped (c : unscoped_call) : M jsval :=
  match c with
  | Index_getTotalSize => Index.getTotalSize adapter
  | Index_readDirectorySize id => Index.readDirectorySize adapter id
  end.

Definition call_listener (c : listener_call) : M unit :=
  match c with
  | Index_connect => Index.connect
  | Index_disconnect => Index.disconnect
  | Index_disconnectReadDirectoryEvent => Index.disconnectReadDirectoryEvent
  | Index_onDirectoryChange cb => Index.onDirectoryChange (Callback cb)
  | Index_onTotalSizeChange cb => Index.onTotalSizeChange cb
  | Index_onReadDirectoryEvent id onChange =>
      Index.onReadDirectoryEvent id onChange
  | Index_onReadDirectorySegmentChange segments onChange =>
      Index.onReadDirectorySegmentChange segments onChange
  end.

Definition step (e : event) (w : World) : World :=
  match e with
  | Scoped c => fst (call c w)
  | Unscoped c => fst (call_unscoped c w)
  | Listener c => fst (call_listener c w)
  | DirectoryChange payload =>
      Index.directory_change_event OPERATION_SCOPE adapter payload w
  | Resume i => Index.resume i w
  end.

Definition run (events : list event) (w : World) : World :=
  fold_left (fun w e => step e w) events w.

End Calls.

(** The mask and the message each operation hands to the gate, as written at
    its call of [verifyAuthorizedCommand]. *)
Definition required_mask (T : OperationScope) (c : scoped_call) : number :=
  match c with
  | Index_readFile _ | File_readFile _ => READ_FILE T
  | Index_uploadFile _ _ _ _ | File_uploadFile _ _ _ _ _ => UPLOAD_FILE T
  | Index_deleteFile _ | File_deleteFile _ => DELETE_FILE T
  | Index_renameFile _ _ | File_renameFile _ _ | File_updateFile _ _ _ =>
      bitor (UPLOAD_FILE T) (DELETE_FILE T)
  | Index_readDirectory _ | Index_readDirectoryBySegment _ => READ_DIRECTORY T
  | Index_createDirectory _ _ => CREATE_DIRECTORY T
  | Index_renameDirectory _ _ | Index_move _ _ _ =>
      bitor (CREATE_DIRECTORY T) (DELETE_DIRECTORY T)
  | Index_deleteDirectory _ => DELETE_DIRECTORY T
  end.

Definition denial_message (c : scoped_call) : string :=
  match c with
  | Index_readFile _ | File_readFile _ => "READ_FILE is not allowed."
  | Index_uploadFile _ _ _ _ | File_uploadFile _ _ _ _ _ =>
      "UPLOAD_FILE is not allowed."
  | Index_deleteFile _ | File_deleteFile _ => "DELETE_FILE is not allowed."
  | Index_renameFile _ _ | File_renameFile _ _ => "RENAME_FILE is not allowed."
  | File_updateFile _ _ _ => "UPDATE_FILE is not allowed."
  | Index_readDirectory _ | Index_readDirectoryBySegment _ =>
      "READ_DIRECTORY is not allowed."
  | Index_createDirectory _ _ => "CREATE_DIRECTORY is not allowed."
  | Index_renameDirectory _ _ | Index_move _ _ _ =>
      "UPDATE_DIRECTORY is not allowed."
  | Index_deleteDirectory _ => "DELETE_DIRECTORY is not allowed."
  end.

(** ** Vocabulary of the properties *)

(** Every bit of [flag] is a bit of [scope]. *)
Definition superset (scope flag : number) : Prop :=
  forall i, bit_set flag i = true -> bit_set scope i = true.

(** [formData.get(name)] *)
Fixpoint form_field (name : string) (f : FormData) : option FormDataEntryValue :=
  match f with
  | [] => None
  | (k, v) :: rest => if String.eqb k name then Some v else form_field name rest
  end.

(** The character [c] occurs in [s]. *)
Fixpoint occurs (c : ascii) (s : string) : bool :=
  match s with
  | EmptyString => false
  | String d r => Ascii.eqb d c || occurs c r
  end.

(** A path component: not empty, and without the separator. *)
Definition component (s : string) : bool :=
  negb (String.eqb s EmptyString) && negb (occurs "/" s).

(** The spec's words for the codec: the second field read as a base-10
    integer, which is [parseInt] with the radix 10 given. *)
Definition parse_base10 (field : string) : number := parseInt field (Some 10).

(** The spec's words for the HTTP surface: a path under [/files/],
    [/directory/] or [/total-size] on the host. *)
Definition spec_path (host url : string) : bool :=
  existsb (fun p => prefix (host ++ p) url)
          ["/files/"; "/directory/"; "/total-size"].

(** The requests [after] holds beyond those of [before]. *)
Definition issued (before after : World) : list request :=
  skipn (List.length (network before)) (network after).

(** Where each operation sends its request, below the host. *)
Definition route (c : scoped_call) : string :=
  match c with
  | Index_readFile _ | Index_uploadFile _ _ _ _ | Index_deleteFile _
  | Index_renameFile _ _ => "/api/files/"
  | Index_readDirectory _ | Index_createDirectory _ _
  | Index_renameDirectory _ _ | Index_move _ _ _ | Index_deleteDirectory _ =>
      "/api/directory/"
  | Index_readDirectoryBySegment _ => "/api/directory?segment="
  | File_readFile _ | File_uploadFile _ _ _ _ _ | File_deleteFile _
  | File_renameFile _ _ | File_updateFile _ _ _ => "/files/"
  end.

Definition route_unscoped (c : unscoped_call) : string :=
  match c with
  | Index_getTotalSize => "/api/total-size"
  | Index_readDirectorySize _ => "/api/directory/"
  end.

(** A table with one bit per capability, a key granting everything and an
    HTTP client that answers every request alike, for the examples. *)
Definition sample_scope : OperationScope :=
  {| READ_FILE := Num 1; UPLOAD_FILE := Num 2; DELETE_FILE := Num 4;
     READ_DIRECTORY := Num 8; CREATE_DIRECTORY := Num 16;
     DELETE_DIRECTORY := Num 32 |}.

Definition sample_response (totalSize : jsval) : AxiosResponse :=
  {| data := JObject [("totalSize", totalSize)]; status := 200 |}.

Definition sample_adapter (totalSize : jsval)
  : list request -> request -> settled AxiosResponse :=
  fun _ _ => Fulfilled (sample_response totalSize).

Definition sample_client (key : string) : World :=
  constructor None {| config_apiKey := key |}.

(** ** Vocabulary of the further properties *)

(** Every capability mask of the table is a non-negative integer below
    2^31, as [1], [2], [4], ... are. *)
Definition small_mask (n : number) : bool :=
  match n with
  | Num z => (0 <=? z) && (z <? 2 ^ 31)
  | _ => false
  end.

Definition small_masks (T : OperationScope) : bool :=
  forallb small_mask (capabilities T).

(** What the gate answers for an operation in a state. *)
Definition passes (T : OperationScope) (w : World) (c : scoped_call) : bool :=
  isCommandAllowed (scope (this w)) (required_mask T c).

(** Decimal numerals: the text of a list of digits, and the integer it
    denotes. *)
Definition decimal_digit (d : Z) : bool := (0 <=? d) && (d <=? 9).

Definition digit_char (d : Z) : ascii := ascii_of_N (Z.to_N (48 + d)).

Fixpoint numeral (digits : list Z) : string :=
  match digits with
  | [] => EmptyString
  | d :: rest => String (digit_char d) (numeral rest)
  end.

Definition numeral_value (digits : list Z) : Z :=
  fold_left (fun acc d => 10 * acc + d) digits 0.

(** The text after a numeral does not go on with a decimal digit. *)
Definition ends_numeral (tail : string) : bool :=
  match tail with
  | EmptyString => true
  | String c _ => match digit_value 10 c with
                  | Some _ => false
                  | None => true
                  end
  end.

(** A field of the key: any text without a dot. *)
Definition field (s : string) : bool := negb (occurs "." s).

Fixpoint count_char (c : ascii) (s : string) : nat :=
  match s with
  | EmptyString => O
  | String d r => if Ascii.eqb d c then S (count_char c r) else count_char c r
  end.

(** The requests one [directory:change] makes a registered function send,
    [allowed] being the gate's answer for [READ_DIRECTORY]. *)
Definition refreshes (allowed : bool) (fn : listener_fn) : nat :=
  match fn with
  | Callback _ => 0%nat
  | TotalSizeChange _ => 1%nat
  | ReadDirectoryEvent _ _ | ReadDirectorySegmentChange _ _ =>
      if allowed then 1%nat else 0%nat
  end.

(** A reader for the JSON text of an array of strings: [current] is the
    string being read (inside its quotes) or [None] between strings;
    [done] holds the strings read so far, last first. *)
Definition unescape (c : ascii) : option ascii :=
  let n := code c in
  if n =? 98 then Some (ascii_of_N 8)
  else if n =? 116 then Some (ascii_of_N 9)
  else if n =? 110 then Some (ascii_of_N 10)
  else if n =? 102 then Some (ascii_of_N 12)
  else if n =? 114 then Some (ascii_of_N 13)
  else if (n =? 34) || (n =? 92) || (n =? 47) then Some c
  else None.

Definition snoc (s : string) (c : ascii) : string := s ++ String c EmptyString.

Fixpoint read_items (s : string) (current : option string) (done : list string)
  : option (list string) :=
  match s with
  | EmptyString => None
  | String c r =>
      match current with
      | None =>
          if code c =? 34 then read_items r (Some EmptyString) done
          else if code c =? 44 then read_items r None done
          else if code c =? 93 then
            match r with
            | EmptyString => Some (rev done)
            | _ => None
            end
          else None
      | Some cur =>
          if code c =? 34 then read_items r None (cur :: done)
          else if code c =? 92 then
            match r with
            | String e r1 =>
                if code e =? 117 then
                  match r1 with
                  | String h3 (String h2 (String h1 (String h0 r2))) =>
                      match digit_value 16 h3, digit_value 16 h2,
                            digit_value 16 h1, digit_value 16 h0 with
                      | Some 0, Some 0, Some x, Some y =>
                          read_items r2
                            (Some (snoc cur (ascii_of_N (Z.to_N (16 * x + y)))))
                            done
                      | _, _, _, _ => None
                      end
                  | _ => None
                  end
                else
                  match unescape e with
                  | Some ch => read_items r1 (Some (snoc cur ch)) done
                  | None => None
                  end
            | EmptyString => None
            end
          else read_items r (Some (snoc cur c)) done
      end
  end.

Definition JSON_parse (text : string) : option (list string) :=
  match text with
  | String c r => if code c =? 91 then read_items r None [] else None
  | EmptyString => None
  end.

(** What the HTTP client's decoding of a JSON body ([JSON.parse]) makes of
    an integer literal: the nearest double. *)
Definition JSON_integer (z : Z) : jsval := JNumber (Number_of_mathint z).

(** The text of [s] before the first [c]: all of [s] when it has none. *)
Fixpoint before (c : ascii) (s : string) : string :=
  match s with
  | EmptyString => EmptyString
  | String d r => if Ascii.eqb d c then EmptyString else String d (before c r)
  end.

(** The text of [s] after the first [c]. *)
Fixpoint after (c : ascii) (s : string) : option string :=
  match s with
  | EmptyString => None
  | String d r => if Ascii.eqb d c then Some r else after c r
  end.

(** The query string of a URL: what follows its first [?], the fragment
    (from the first [#] on), which is not sent, left out. *)
Definition url_query (url : string) : string :=
  match after "?" (before "#" url) with
  | Some query => query
  | None => EmptyString
  end.

(** The parameters of a URL: its query string cut at each [&]. *)
Definition query_parameters (url : string) : list string :=
  split "&" (url_query url).

(** A text that means nothing to the query syntax: no [&], no [#]. *)
Definition query_plain (s : string) : bool :=
  negb (occurs "&" s) && negb (occurs "#" s).

(** * Properties *)

(** ** The 32-bit image of a number *)

Lemma ToInt32_small (z : Z) :
  - 2 ^ 31 <= z < 2 ^ 31 -> ToInt32 (Num z) = z.
Proof.
  intros Hz. unfold ToInt32.
  rewrite Z.mod_small; lia.
Qed.

Lemma ToInt32_mod (z : Z) : ToInt32 (Num z) mod 2 ^ 32 = z mod 2 ^ 32.
Proof.
  unfold ToInt32.
  rewrite Zminus_mod_idemp_l.
  f_equal. lia.
Qed.

Lemma testbit_ToInt32 (z k : Z) :
  0 <= k < 32 -> Z.testbit (ToInt32 (Num z)) k = Z.testbit z k.
Proof.
  intros Hk.
  rewrite <- (Z.mod_pow2_bits_low (ToInt32 (Num z)) 32 k) by lia.
  rewrite <- (Z.mod_pow2_bits_low z 32 k) by lia.
  now rewrite ToInt32_mod.
Qed.

Lemma testbit_above (f i : Z) (n : Z) :
  0 <= n -> 0 <= f < 2 ^ n -> n <= i -> Z.testbit f i = false.
Proof.
  intros Hn Hf Hi.
  destruct (Z.eq_dec f 0) as [-> | Hne].
  - apply Z.bits_0.
  - apply Z.bits_above_log2; [lia |].
    assert (Z.log2 f < n) by (apply Z.log2_lt_pow2; lia).
    lia.
Qed.

Lemma land_absorbs_iff (a f : Z) :
  Z.land a f = f <-> (forall i, Z.testbit f i = true -> Z.testbit a i = true).
Proof.
  split.
  - intros H i Hi. rewrite <- H in Hi.
    rewrite Z.land_spec in Hi.
    now apply andb_true_iff in Hi.
  - intros H. apply Z.bits_inj'. intros i _.
    rewrite Z.land_spec.
    destruct (Z.testbit f i) eqn:Hf.
    + now rewrite (H i Hf).
    + apply andb_false_r.
Qed.

Lemma no_bit_iff_zero (f : Z) :
  f = 0 <-> (forall i, Z.testbit f i = true -> false = true).
Proof.
  split.
  - intros -> i. now rewrite Z.bits_0.
  - intros H. apply Z.bits_inj_0. intros i.
    destruct (Z.testbit f i) eqn:Hf; [| reflexivity].
    symmetry. now apply (H i).
Qed.

(** ** The authorization gate *)

Lemma isCommandAllowed_zero (flag : number) :
  isCommandAllowed (Num 0) flag = true.
Proof. reflexivity. Qed.

Lemma isCommandAllowed_integer_scope (s f : Z) :
  s <> 0 -> 0 <= f < 2 ^ 31 ->
  isCommandAllowed (Num s) (Num f) = true <-> superset (Num s) (Num f).
Proof.
  intros Hs Hf. unfold isCommandAllowed, superset, bitand, strict_eq, bit_set.
  destruct (Z.eqb_spec s 0) as [? | _]; [contradiction |].
  rewrite (ToInt32_small f) by lia.
  rewrite Z.eqb_eq, land_absorbs_iff.
  split; intros H i Hi.
  - destruct (Z.ltb_spec i 0) as [Hneg | Hpos].
    + now rewrite Z.testbit_neg_r in Hi.
    + destruct (Z.ltb_spec i 31) as [Hlow | Hhigh].
      * rewrite <- testbit_ToInt32 by lia. now apply H.
      * now rewrite (testbit_above f i 31) in Hi by lia.
  - destruct (Z.ltb_spec i 0) as [Hneg | Hpos].
    + now rewrite Z.testbit_neg_r in Hi.
    + destruct (Z.ltb_spec i 31) as [Hlow | Hhigh].
      * rewrite testbit_ToInt32 by lia. now apply H.
      * now rewrite (testbit_above f i 31) in Hi by lia.
Qed.

Lemma isCommandAllowed_no_bits (scope : number) (f : Z) :
  ToInt32 scope = 0 -> (forall i, bit_set scope i = false) ->
  strict_eq scope (Num 0) = false ->
  isCommandAllowed scope (Num f) = true <-> superset scope (Num f).
Proof.
  intros H32 Hbits Hnz. unfold isCommandAllowed, superset, bitand.
  rewrite Hnz, H32, Z.land_0_l. cbn [strict_eq].
  rewrite Z.eqb_eq. split.
  - intros <- i Hi. cbn [bit_set] in Hi. now rewrite Z.bits_0 in Hi.
  - intros H. symmetry. apply no_bit_iff_zero. intros i Hi.
    rewrite <- (Hbits i). now apply H.
Qed.

(** C1 (as amended): with a granted scope of 0 the gate allows every
    required mask; with any other scope, and a required mask that is a
    non-negative integer below 2^31, it allows exactly when every bit of
    the mask is a bit of the scope. *)
Theorem isCommandAllowed_superset (scope flag : number) :
  (scope = Num 0 -> isCommandAllowed scope flag = true)
  /\ (scope <> Num 0 ->
      forall f, flag = Num f -> 0 <= f < 2 ^ 31 ->
      (isCommandAllowed scope flag = true <-> superset scope flag)).
Proof.
  split.
  - intros ->. apply isCommandAllowed_zero.
  - intros Hnz f -> Hf.
    destruct scope as [| neg | s].
    + now apply isCommandAllowed_no_bits.
    + now apply isCommandAllowed_no_bits.
    + apply isCommandAllowed_integer_scope; [congruence | assumption].
Qed.

Lemma isCommandAllowed_superset_witness :
  isCommandAllowed (Num 0) (Num 63) = true
  /\ (isCommandAllowed (Num 3) (Num 2) = true <-> superset (Num 3) (Num 2))
  /\ (isCommandAllowed NaN (Num 2) = true <-> superset NaN (Num 2)).
Proof.
  split; [| split].
  - apply (proj1 (isCommandAllowed_superset (Num 0) (Num 63))). reflexivity.
  - refine (proj2 (isCommandAllowed_superset (Num 3) (Num 2)) _ 2 eq_refl _);
      [discriminate | lia].
  - refine (proj2 (isCommandAllowed_superset NaN (Num 2)) _ 2 eq_refl _);
      [discriminate | lia].
Defined.

(** C1 (as stated) fails past the 31 bits the bitwise operators keep as a
    non-negative number: the mask 2^31 is its own superset, the scope is
    not 0, and the gate denies, since [scope & flag] is the negative
    -2^31. *)
Lemma isCommandAllowed_bit31_denied :
  Num 2147483648 <> Num 0
  /\ superset (Num 2147483648) (Num 2147483648)
  /\ isCommandAllowed (Num 2147483648) (Num 2147483648) = false.
Proof.
  split; [discriminate | split].
  - intros i Hi. exact Hi.
  - reflexivity.
Qed.

(** ** The gate in front of every scoped operation *)

Lemma verify_allowed (scope flag : number) (message : option string) (w : World) :
  isCommandAllowed scope flag = true ->
  verifyAuthorizedCommand scope flag message w = (w, Fulfilled tt).
Proof.
  intros H. unfold verifyAuthorizedCommand. now rewrite H.
Qed.

Lemma verify_denied (scope flag : number) (message : string) (w : World) :
  isCommandAllowed scope flag = false ->
  verifyAuthorizedCommand scope flag (Some message) w
  = (w, Rejected (Error message)).
Proof.
  intros H. unfold verifyAuthorizedCommand. now rewrite H.
Qed.

Ltac unfold_call :=
  unfold call, Index.readFile, Index.uploadFile, Index.deleteFile,
    Index.renameFile, Index.readDirectory, Index.readDirectoryBySegment,
    Index.createDirectory, Index.renameDirectory, Index.move,
    Index.deleteDirectory, File.readFile, File.uploadFile, File.deleteFile,
    File.renameFile, File.updateFile, Index.axios, File.axios, bind, get_this.

Lemma call_denied T adapter (c : scoped_call) (w : World) :
  isCommandAllowed (scope (this w)) (required_mask T c) = false ->
  call T adapter c w = (w, Rejected (Error (denial_message c))).
Proof.
  intros H.
  destruct c; cbn [required_mask denial_message] in *; unfold_call;
    now rewrite (verify_denied _ _ _ _ H).
Qed.

Lemma call_allowed T adapter (c : scoped_call) (w : World) :
  isCommandAllowed (scope (this w)) (required_mask T c) = true ->
  exists req, call T adapter c w = (sent req w, adapter (network w) req).
Proof.
  intros H.
  destruct c; cbn [required_mask] in *; unfold_call;
    rewrite (verify_allowed _ _ _ _ H); eexists; reflexivity.
Qed.

(** C2: a scoped operation whose required mask the session's scope does not
    allow settles with the error carrying the operation's denial message
    and hands no request to the HTTP client (the state is untouched); one
    whose mask is allowed hands over exactly one request and settles as that
    request does. *)
Theorem scoped_operation_gate T adapter (c : scoped_call) (w : World) :
  (isCommandAllowed (scope (this w)) (required_mask T c) = false ->
   call T adapter c w = (w, Rejected (Error (denial_message c)))
   /\ network (fst (call T adapter c w)) = network w)
  /\ (isCommandAllowed (scope (this w)) (required_mask T c) = true ->
      exists req,
        call T adapter c w = (sent req w, adapter (network w) req)
        /\ network (fst (call T adapter c w)) = (network w ++ [req])%list).
Proof.
  split; intros H.
  - rewrite (call_denied T adapter c w H). split; reflexivity.
  - destruct (call_allowed T adapter c w H) as [req Hreq].
    exists req. rewrite Hreq. split; reflexivity.
Qed.

Lemma scoped_operation_gate_witness :
  (call sample_scope (sample_adapter JNull) (Index_deleteDirectory "d")
        (sample_client "k.3.u.h.e")
   = (sample_client "k.3.u.h.e", Rejected (Error "DELETE_DIRECTORY is not allowed."))
   /\ network (fst (call sample_scope (sample_adapter JNull)
                         (Index_deleteDirectory "d") (sample_client "k.3.u.h.e")))
      = [])
  /\ exists req,
       call sample_scope (sample_adapter JNull) (File_updateFile "f" None None)
            (sample_client "k.6.u.h.e")
       = (sent req (sample_client "k.6.u.h.e"),
          sample_adapter JNull [] req)
       /\ network (fst (call sample_scope (sample_adapter JNull)
                             (File_updateFile "f" None None)
                             (sample_client "k.6.u.h.e")))
          = [req].
Proof.
  split.
  - apply (proj1 (scoped_operation_gate sample_scope (sample_adapter JNull)
                    (Index_deleteDirectory "d") (sample_client "k.3.u.h.e"))).
    reflexivity.
  - apply (proj2 (scoped_operation_gate sample_scope (sample_adapter JNull)
                    (File_updateFile "f" None None) (sample_client "k.6.u.h.e"))).
    reflexivity.
Defined.

(** ** The size queries *)

Lemma call_unscoped_run adapter (c : unscoped_call) (w : World) :
  exists req,
    method req = GET
    /\ call_unscoped adapter c w
       = (sent req w,
          match adapter (network w) req with
          | Fulfilled result => get_property (data result) "totalSize"
          | Rejected e => Rejected e
          end).
Proof.
  destruct c; unfold call_unscoped, Index.getTotalSize, Index.readDirectorySize,
    Index.axios, bind, get_this, lift; cbn beta iota;
    match goal with |- context [sent ?R w] => exists R end;
    (split; [reflexivity | destruct (adapter _ _); reflexivity]).
Qed.

(** C7: [getTotalSize] and [readDirectorySize] consult no scope: in every
    state, whatever the granted scope, the call hands exactly one GET to the
    HTTP client, and it settles as that request does (with the body's
    [totalSize]), so it is never rejected by the gate. *)
Theorem size_queries_unscoped adapter (c : unscoped_call) (w : World) :
  exists req,
    method req = GET
    /\ network (fst (call_unscoped adapter c w)) = (network w ++ [req])%list
    /\ snd (call_unscoped adapter c w)
       = match adapter (network w) req with
         | Fulfilled result => get_property (data result) "totalSize"
         | Rejected e => Rejected e
         end.
Proof.
  destruct (call_unscoped_run adapter c w) as [req [Hget Hrun]].
  exists req. rewrite Hrun. repeat split; assumption.
Qed.

Lemma totalSize_passed_through adapter (c : unscoped_call) (w : World)
    (value : jsval) :
  (forall history req, exists result props,
      adapter history req = Fulfilled result
      /\ data result = JObject props
      /\ own_property "totalSize" props = value) ->
  snd (call_unscoped adapter c w) = Fulfilled value.
Proof.
  intros Hanswer.
  destruct (size_queries_unscoped adapter c w) as [req [_ [_ Hsnd]]].
  rewrite Hsnd.
  destruct (Hanswer (network w) req) as [result [props [-> [Hdata Hprop]]]].
  unfold get_property. now rewrite Hdata, Hprop.
Qed.

(** C3 fails on the code: [getTotalSize] and [readDirectorySize], declared
    to return a [bigint], hand back [result.data.totalSize] as the HTTP
    client decoded it, with no conversion. A JSON body whose [totalSize]
    is the integer 9007199254740993 (2^53 + 1) is decoded to the nearest
    double, and both methods are fulfilled with the number
    9007199254740992: not a big integer, and not the value sent. *)
Theorem totalSize_beyond_2_53_is_rounded :
  let answer :=
    {| data := JObject [("totalSize", JSON_integer 9007199254740993)];
       status := 200 |} in
  JSON_integer 9007199254740993 = JNumber (Num 9007199254740992)
  /\ snd (call_unscoped (fun _ _ => Fulfilled answer) Index_getTotalSize
            (sample_client "k.0.u.h.e"))
     = Fulfilled (JNumber (Num 9007199254740992))
  /\ snd (call_unscoped (fun _ _ => Fulfilled answer)
            (Index_readDirectorySize "d") (sample_client "k.0.u.h.e"))
     = Fulfilled (JNumber (Num 9007199254740992)).
Proof.
  cbv zeta. split; [reflexivity | split].
  - apply totalSize_passed_through. intros history req.
    eexists. eexists. repeat split.
  - apply totalSize_passed_through. intros history req.
    eexists. eexists. repeat split.
Qed.

(** ** The upload payload *)

Example JSON_stringify_storage_classes :
  JSON_stringify ["hot"; "glacier"]
  = "[" ++ String double_quote "hot" ++ String double_quote ","
    ++ String double_quote "glacier" ++ String double_quote "]".
Proof. reflexivity. Qed.

(** C4 (as amended): an upload that passes the gate sends a multipart
    payload that starts with [name], [file], [collectionName] and
    [directoryId]. The method of the class ([index.ts]) adds the session's
    [edgeToken] and has no storage classes to send; the function of
    [file.ts] adds [storageClasses], the JSON text of the list, exactly when
    a non-empty list is supplied, and sends no [edgeToken]. *)
Theorem uploadFile_payload T adapter (w : World) (name : string)
    (file : FormDataEntryValue) (collectionName directoryId : string)
    (storageClasses : option (list string)) :
  isCommandAllowed (scope (this w)) (UPLOAD_FILE T) = true ->
  (exists req,
      Index.uploadFile T adapter name file collectionName directoryId w
      = (sent req w, adapter (network w) req)
      /\ method req = POST
      /\ body req
         = MultipartData
             [("name", Text name); ("file", file);
              ("collectionName", Text collectionName);
              ("directoryId", Text directoryId);
              ("edgeToken", Text (ToString (edgeToken (this w))))])
  /\ (exists req,
         File.uploadFile T adapter name file collectionName directoryId
           storageClasses w
         = (sent req w, adapter (network w) req)
         /\ method req = POST
         /\ body req
            = MultipartData
                ([("name", Text name); ("file", file);
                  ("collectionName", Text collectionName);
                  ("directoryId", Text directoryId)]
                 ++ match storageClasses with
                    | Some (c :: l) =>
                        [("storageClasses", Text (JSON_stringify (c :: l)))]
                    | _ => []
                    end)%list).
Proof.
  intros H. split.
  - unfold Index.uploadFile, Index.axios, bind, get_this.
    rewrite (verify_allowed _ _ _ _ H).
    eexists. repeat split.
  - unfold File.uploadFile, File.axios, bind, get_this.
    rewrite (verify_allowed _ _ _ _ H).
    eexists. split; [reflexivity | split; [reflexivity |]].
    destruct storageClasses as [[| c l] |]; reflexivity.
Qed.

Lemma uploadFile_payload_witness :
  (exists req,
      Index.uploadFile sample_scope (sample_adapter JNull) "n" (Blob "x") "c" "d"
        (sample_client "k.2.u.h.tok")
      = (sent req (sample_client "k.2.u.h.tok"), sample_adapter JNull [] req)
      /\ method req = POST
      /\ body req
         = MultipartData
             [("name", Text "n"); ("file", Blob "x");
              ("collectionName", Text "c"); ("directoryId", Text "d");
              ("edgeToken", Text "tok")])
  /\ (exists req,
         File.uploadFile sample_scope (sample_adapter JNull) "n" (Blob "x") "c" "d"
           (Some ["hot"]) (sample_client "k.2.u.h.tok")
         = (sent req (sample_client "k.2.u.h.tok"), sample_adapter JNull [] req)
         /\ method req = POST
         /\ body req
            = MultipartData
                [("name", Text "n"); ("file", Blob "x");
                 ("collectionName", Text "c"); ("directoryId", Text "d");
                 ("storageClasses", Text (JSON_stringify ["hot"]))]).
Proof.
  apply (uploadFile_payload sample_scope (sample_adapter JNull)
           (sample_client "k.2.u.h.tok") "n" (Blob "x") "c" "d" (Some ["hot"])).
  reflexivity.
Defined.

(** C4 (as stated) fails on the function of [file.ts]: with storage classes
    supplied and an edge token in the key, the one request sent carries a
    payload that has [storageClasses] and no [edgeToken] field. *)
Lemma File_uploadFile_sends_no_edgeToken :
  edgeToken (this (sample_client "k.0.u.h.tok")) = Some "tok"
  /\ map body
       (network
          (fst (File.uploadFile sample_scope (sample_adapter JNull) "n" (Blob "x")
                  "c" "d" (Some ["hot"]) (sample_client "k.0.u.h.tok"))))
     = [MultipartData
          [("name", Text "n"); ("file", Blob "x");
           ("collectionName", Text "c"); ("directoryId", Text "d");
           ("storageClasses", Text (JSON_stringify ["hot"]))]]
  /\ form_field "edgeToken"
       [("name", Text "n"); ("file", Blob "x");
        ("collectionName", Text "c"); ("directoryId", Text "d");
        ("storageClasses", Text (JSON_stringify ["hot"]))]
     = None.
Proof. repeat split. Qed.

(** ** Composite masks *)

Lemma capability_bit_pow2 (n : number) :
  capability_bit n = true -> exists k, 0 <= k < 32 /\ n = Num (2 ^ k).
Proof.
  destruct n as [| neg | z]; try discriminate.
  unfold capability_bit. intros H.
  apply andb_true_iff in H. destruct H as [H Hpow].
  apply andb_true_iff in H. destruct H as [Hpos Hlt].
  apply Z.ltb_lt in Hpos, Hlt. apply Z.eqb_eq in Hpow.
  exists (Z.log2 z). split.
  - split; [apply Z.log2_nonneg |].
    apply Z.log2_lt_pow2; assumption.
  - now f_equal.
Qed.

Lemma gate_denies_missing_bit (scope : number) (f k : Z) :
  0 <= k < 32 ->
  strict_eq scope (Num 0) = false ->
  Z.testbit (ToInt32 scope) k = false ->
  Z.testbit f k = true ->
  isCommandAllowed scope (Num f) = false.
Proof.
  intros Hk Hnz Hscope Hflag. unfold isCommandAllowed, bitand.
  rewrite Hnz. cbn [strict_eq].
  apply Z.eqb_neq. intros Heq.
  assert (Hbit : Z.testbit (Z.land (ToInt32 scope) (ToInt32 (Num f))) k
                 = Z.testbit f k) by now rewrite Heq.
  rewrite Z.land_spec, Hscope, Hflag in Hbit. discriminate.
Qed.

Lemma single_bit_lacks_the_pair (i j : Z) :
  0 <= i < 32 -> 0 <= j < 32 -> i <> j ->
  isCommandAllowed (Num (2 ^ i)) (bitor (Num (2 ^ i)) (Num (2 ^ j))) = false.
Proof.
  intros Hi Hj Hij. unfold bitor.
  apply (gate_denies_missing_bit _ _ j Hj).
  - cbn [strict_eq]. apply Z.eqb_neq.
    assert (0 < 2 ^ i) by (apply Z.pow_pos_nonneg; lia). lia.
  - rewrite testbit_ToInt32 by lia.
    rewrite Z.pow2_bits_eqb by lia. now apply Z.eqb_neq.
  - rewrite Z.lor_spec, (testbit_ToInt32 (2 ^ j)) by lia.
    rewrite (Z.pow2_bits_eqb j j) by lia.
    rewrite Z.eqb_refl. apply orb_true_r.
Qed.

Lemma upload_and_delete_differ T :
  distinct_capability_bits T = true ->
  exists i j, 0 <= i < 32 /\ 0 <= j < 32 /\ i <> j
              /\ UPLOAD_FILE T = Num (2 ^ i) /\ DELETE_FILE T = Num (2 ^ j).
Proof.
  unfold distinct_capability_bits, capabilities. intros H.
  apply andb_true_iff in H. destruct H as [Hbits Hdistinct].
  cbn [forallb] in Hbits.
  repeat (apply andb_true_iff in Hbits; destruct Hbits as [? Hbits]).
  destruct (capability_bit_pow2 (UPLOAD_FILE T)) as [i [Hi Hu]]; [assumption |].
  destruct (capability_bit_pow2 (DELETE_FILE T)) as [j [Hj Hd]]; [assumption |].
  exists i, j. repeat split; try assumption; try lia.
  intros ->.
  cbn [all_distinct existsb] in Hdistinct.
  rewrite Hu, Hd in Hdistinct. cbn [strict_eq] in Hdistinct.
  rewrite Z.eqb_refl in Hdistinct.
  rewrite ?orb_true_r, ?orb_true_l, ?andb_false_r, ?andb_false_l in Hdistinct.
  cbn in Hdistinct.
  rewrite ?orb_true_r, ?orb_true_l, ?andb_false_r, ?andb_false_l in Hdistinct.
  discriminate.
Qed.

(** C5: renaming and updating a file hand the gate the same composite mask,
    [UPLOAD_FILE | DELETE_FILE]; on a session whose scope is the
    [UPLOAD_FILE] bit alone (a non-zero scope, the capabilities being
    distinct bits), [renameFile] (of the class and of [file.ts]) and
    [updateFile] are denied, each with its message and without a request. *)
Theorem upload_only_key_cannot_rename_or_update T adapter (w : World)
    (id name : string) (name' : option string)
    (storageClasses : option (list string)) :
  distinct_capability_bits T = true ->
  scope (this w) = UPLOAD_FILE T ->
  strict_eq (scope (this w)) (Num 0) = false
  /\ required_mask T (Index_renameFile id name)
     = bitor (UPLOAD_FILE T) (DELETE_FILE T)
  /\ required_mask T (File_renameFile id name)
     = bitor (UPLOAD_FILE T) (DELETE_FILE T)
  /\ required_mask T (File_updateFile id name' storageClasses)
     = bitor (UPLOAD_FILE T) (DELETE_FILE T)
  /\ Index.renameFile T adapter id name w
     = (w, Rejected (Error "RENAME_FILE is not allowed."))
  /\ File.renameFile T adapter id name w
     = (w, Rejected (Error "RENAME_FILE is not allowed."))
  /\ File.updateFile T adapter id name' storageClasses w
     = (w, Rejected (Error "UPDATE_FILE is not allowed.")).
Proof.
  intros Hwf Hscope.
  destruct (upload_and_delete_differ T Hwf) as [i [j [Hi [Hj [Hij [Hu Hd]]]]]].
  assert (Hdenied : isCommandAllowed (scope (this w))
                      (bitor (UPLOAD_FILE T) (DELETE_FILE T)) = false).
  { rewrite Hscope, Hu, Hd. now apply single_bit_lacks_the_pair. }
  split.
  - rewrite Hscope, Hu. cbn [strict_eq]. apply Z.eqb_neq.
    assert (0 < 2 ^ i) by (apply Z.pow_pos_nonneg; lia). lia.
  - repeat split.
    + apply (call_denied T adapter (Index_renameFile id name) w Hdenied).
    + apply (call_denied T adapter (File_renameFile id name) w Hdenied).
    + apply (call_denied T adapter (File_updateFile id name' storageClasses) w
               Hdenied).
Qed.

Lemma upload_only_key_cannot_rename_or_update_witness :
  strict_eq (scope (this (sample_client "k.2.u.h.e"))) (Num 0) = false
  /\ required_mask sample_scope (Index_renameFile "f" "n")
     = bitor (Num 2) (Num 4)
  /\ required_mask sample_scope (File_renameFile "f" "n")
     = bitor (Num 2) (Num 4)
  /\ required_mask sample_scope (File_updateFile "f" (Some "n") None)
     = bitor (Num 2) (Num 4)
  /\ Index.renameFile sample_scope (sample_adapter JNull) "f" "n"
       (sample_client "k.2.u.h.e")
     = (sample_client "k.2.u.h.e", Rejected (Error "RENAME_FILE is not allowed."))
  /\ File.renameFile sample_scope (sample_adapter JNull) "f" "n"
       (sample_client "k.2.u.h.e")
     = (sample_client "k.2.u.h.e", Rejected (Error "RENAME_FILE is not allowed."))
  /\ File.updateFile sample_scope (sample_adapter JNull) "f" (Some "n") None
       (sample_client "k.2.u.h.e")
     = (sample_client "k.2.u.h.e", Rejected (Error "UPDATE_FILE is not allowed.")).
Proof.
  apply (upload_only_key_cannot_rename_or_update sample_scope
           (sample_adapter JNull) (sample_client "k.2.u.h.e") "f" "n"
           (Some "n") None); reflexivity.
Defined.

(** ** Path segments *)

Lemma append_assoc (a b c : string) : (a ++ b) ++ c = a ++ b ++ c.
Proof.
  induction a as [| ch a IH]; cbn [String.append].
  - reflexivity.
  - now rewrite IH.
Qed.

Lemma split_nonempty (sep : ascii) (s : string) : split sep s <> [].
Proof.
  destruct s as [| c r]; cbn [split].
  - discriminate.
  - destruct (Ascii.eqb c sep); [discriminate |].
    destruct (split sep r); discriminate.
Qed.

Lemma split_without_separator (sep : ascii) (s : string) :
  occurs sep s = false -> split sep s = [s].
Proof.
  induction s as [| c r IH]; cbn [split occurs]; intros H.
  - reflexivity.
  - apply orb_false_iff in H. destruct H as [Hc Hr].
    rewrite Hc, (IH Hr). reflexivity.
Qed.

Lemma split_at_separator (sep : ascii) (a b : string) :
  occurs sep a = false ->
  split sep (a ++ String sep b) = a :: split sep b.
Proof.
  induction a as [| c r IH]; cbn [split occurs String.append]; intros H.
  - now rewrite Ascii.eqb_refl.
  - apply orb_false_iff in H. destruct H as [Hc Hr].
    rewrite Hc, (IH Hr). reflexivity.
Qed.

Lemma component_no_separator (s : string) :
  component s = true -> occurs "/" s = false.
Proof.
  unfold component. intros H.
  apply andb_true_iff in H. destruct H as [_ H].
  now apply negb_true_iff in H.
Qed.

Lemma split_join (components : list string) :
  components <> [] ->
  forallb component components = true ->
  split "/" (join "/" components) = components.
Proof.
  induction components as [| c rest IH]; [congruence |].
  intros _ H. cbn [forallb] in H.
  apply andb_true_iff in H. destruct H as [Hc Hrest].
  apply component_no_separator in Hc.
  destruct rest as [| d rest'].
  - cbn [join]. now apply split_without_separator.
  - change (join "/" (c :: d :: rest')) with (c ++ String "/" (join "/" (d :: rest'))).
    rewrite (split_at_separator "/" c _ Hc).
    f_equal. apply IH; [discriminate | assumption].
Qed.

Lemma join_segments (components : list string) :
  components <> [] ->
  "segment=" ++ join "&segment=" components
  = join "&" (map (String.append "segment=") components).
Proof.
  induction components as [| c rest IH]; [congruence |].
  intros _. destruct rest as [| d rest'].
  - reflexivity.
  - change (join "&segment=" (c :: d :: rest'))
      with (c ++ "&segment=" ++ join "&segment=" (d :: rest')).
    change (join "&" (map (String.append "segment=") (c :: d :: rest')))
      with (("segment=" ++ c) ++ "&"
            ++ join "&" (map (String.append "segment=") (d :: rest'))).
    rewrite <- IH by discriminate.
    rewrite append_assoc. reflexivity.
Qed.

Lemma readDirectoryBySegment_url T adapter (w : World)
    (first : string) (others : list string) :
  forallb component (first :: others) = true ->
  isCommandAllowed (scope (this w)) (READ_DIRECTORY T) = true ->
  Index.readDirectoryBySegment T adapter (join "/" (first :: others)) w
  = let req := {| method := GET;
                  url := host (this w) ++ "/api/directory?"
                         ++ join "&" (map (String.append "segment=")
                                          (first :: others));
                  body := NoData;
                  headers := bearer (this w) |} in
    (sent req w, adapter (network w) req).
Proof.
  intros Hcomponents Hallowed.
  unfold Index.readDirectoryBySegment, Index.axios, bind, get_this.
  rewrite (verify_allowed _ _ _ _ Hallowed).
  rewrite (split_join (first :: others)) by (discriminate || assumption).
  rewrite <- (join_segments (first :: others)) by discriminate.
  reflexivity.
Qed.

(** ** The session fields never change *)

Lemma call_this T adapter (c : scoped_call) (w : World) :
  this (fst (call T adapter c w)) = this w.
Proof.
  destruct (isCommandAllowed (scope (this w)) (required_mask T c)) eqn:H.
  - destruct (call_allowed T adapter c w H) as [req ->]. reflexivity.
  - now rewrite (call_denied T adapter c w H).
Qed.

Lemma call_unscoped_this adapter (c : unscoped_call) (w : World) :
  this (fst (call_unscoped adapter c w)) = this w.
Proof.
  destruct (call_unscoped_run adapter c w) as [req [_ ->]]. reflexivity.
Qed.

Lemma call_listener_this (c : listener_call) (w : World) :
  this (fst (call_listener c w)) = this w.
Proof. destruct c; reflexivity. Qed.

Lemma run_listener_this T adapter (payload : jsval) (fn : listener_fn)
    (w : World) :
  this (Index.run_listener T adapter payload fn w) = this w.
Proof.
  destruct fn as [cb | cb | id cb | segments cb]; cbn [Index.run_listener].
  - reflexivity.
  - pose proof (call_unscoped_this adapter Index_getTotalSize w) as H.
    cbn [call_unscoped] in H.
    destruct (Index.getTotalSize adapter w) as [w' [v | e]]; exact H.
  - pose proof (call_this T adapter (Index_readDirectory (Some id)) w) as H.
    cbn [call] in H.
    destruct (Index.readDirectory T adapter (Some id) w) as [w' [v | e]]; exact H.
  - pose proof (call_this T adapter (Index_readDirectoryBySegment segments) w)
      as H.
    cbn [call] in H.
    destruct (Index.readDirectoryBySegment T adapter segments w)
      as [w' [v | e]]; exact H.
Qed.

Lemma directory_change_event_this T adapter (payload : jsval) (w : World) :
  this (Index.directory_change_event T adapter payload w) = this w.
Proof.
  unfold Index.directory_change_event.
  destruct (connected (listener w)); [| reflexivity].
  generalize (directory_change (listener w)). intros fns.
  revert w. induction fns as [| fn fns IH]; intros w; cbn [fold_left].
  - reflexivity.
  - rewrite IH. apply run_listener_this.
Qed.

Lemma resume_this (i : nat) (w : World) : this (Index.resume i w) = this w.
Proof.
  unfold Index.resume.
  destruct (nth_error (awaited w) i) as [[cb [value | e]] |]; reflexivity.
Qed.

Lemma step_this T adapter (e : event) (w : World) :
  this (step T adapter e w) = this w.
Proof.
  destruct e; cbn [step].
  - apply call_this.
  - apply call_unscoped_this.
  - apply call_listener_this.
  - apply directory_change_event_this.
  - apply resume_this.
Qed.

Lemma run_this T adapter (events : list event) (w : World) :
  this (run T adapter events w) = this w.
Proof.
  unfold run. revert w.
  induction events as [| e events IH]; intros w; cbn [fold_left].
  - reflexivity.
  - rewrite IH. apply step_this.
Qed.

(** ** A scope that is not a number *)

Lemma gate_denies_NaN (flag : number) :
  flag <> Num 0 -> isCommandAllowed NaN flag = false.
Proof.
  intros H. unfold isCommandAllowed, bitand. cbn [strict_eq ToInt32].
  rewrite Z.land_0_l.
  destruct flag as [| neg | f]; try reflexivity.
  cbn [strict_eq]. apply Z.eqb_neq. congruence.
Qed.

(** C8: when [parseInt] makes no number of the key's second field (the
    text "undefined" when the key has none), the constructor still returns
    a client, whose scope is [NaN]; from then on, after any calls and
    change signals, every scoped operation whose required mask is not 0 is
    denied with its message and without a request, while [getTotalSize] and
    [readDirectorySize] hand their request to the HTTP client. *)
Theorem malformed_scope_denies_all_scoped T adapter (NODE_ENV : option string)
    (key : string) (events : list event) (c : scoped_call) (u : unscoped_call) :
  parseInt (ToString (nth_error (split "." key) 1)) None = NaN ->
  let w0 := constructor NODE_ENV {| config_apiKey := key |} in
  let w := run T adapter events w0 in
  scope (this w0) = NaN
  /\ (required_mask T c <> Num 0 ->
      call T adapter c w = (w, Rejected (Error (denial_message c))))
  /\ exists req,
       method req = GET
       /\ network (fst (call_unscoped adapter u w)) = (network w ++ [req])%list.
Proof.
  intros Hnan w0 w.
  assert (Hscope0 : scope (this w0) = NaN) by exact Hnan.
  assert (Hscope : scope (this w) = NaN).
  { unfold w. now rewrite run_this. }
  split; [exact Hscope0 | split].
  - intros Hmask. apply call_denied.
    rewrite Hscope. now apply gate_denies_NaN.
  - destruct (size_queries_unscoped adapter u w) as [req [Hget [Hnet _]]].
    exists req. split; assumption.
Qed.

Lemma malformed_scope_denies_all_scoped_witness :
  scope (this (sample_client "k.admin.u.h.e")) = NaN
  /\ (required_mask sample_scope (Index_readFile None) <> Num 0 ->
      call sample_scope (sample_adapter JNull) (Index_readFile None)
        (run sample_scope (sample_adapter JNull)
           [Listener Index_connect; Unscoped Index_getTotalSize]
           (sample_client "k.admin.u.h.e"))
      = (run sample_scope (sample_adapter JNull)
           [Listener Index_connect; Unscoped Index_getTotalSize]
           (sample_client "k.admin.u.h.e"),
         Rejected (Error "READ_FILE is not allowed.")))
  /\ exists req,
       method req = GET
       /\ network
            (fst (call_unscoped (sample_adapter JNull) Index_getTotalSize
                    (run sample_scope (sample_adapter JNull)
                       [Listener Index_connect; Unscoped Index_getTotalSize]
                       (sample_client "k.admin.u.h.e"))))
          = (network
               (run sample_scope (sample_adapter JNull)
                  [Listener Index_connect; Unscoped Index_getTotalSize]
                  (sample_client "k.admin.u.h.e")) ++ [req])%list.
Proof.
  apply (malformed_scope_denies_all_scoped sample_scope (sample_adapter JNull)
           None "k.admin.u.h.e"
           [Listener Index_connect; Unscoped Index_getTotalSize]
           (Index_readFile None) Index_getTotalSize).
  reflexivity.
Defined.

(** ** Where the requests go, and with which credential *)

Lemma issued_none (w : World) : issued w w = [].
Proof. unfold issued. apply skipn_all. Qed.

Lemma issued_one (req : request) (w : World) : issued w (sent req w) = [req].
Proof.
  unfold issued, sent. cbn [network].
  rewrite skipn_app, skipn_all, Nat.sub_diag. reflexivity.
Qed.

Lemma call_allowed_request T adapter (c : scoped_call) (w : World) :
  isCommandAllowed (scope (this w)) (required_mask T c) = true ->
  exists req,
    call T adapter c w = (sent req w, adapter (network w) req)
    /\ headers req = bearer (this w)
    /\ exists rest, url req = host (this w) ++ route c ++ rest.
Proof.
  intros H.
  destruct c; cbn [required_mask] in *; unfold_call;
    rewrite (verify_allowed _ _ _ _ H);
    (eexists; split; [reflexivity | split; [reflexivity |]]);
    cbn [url route]; eexists; reflexivity.
Qed.

Lemma call_unscoped_request adapter (c : unscoped_call) (w : World) :
  exists req,
    fst (call_unscoped adapter c w) = sent req w
    /\ headers req = bearer (this w)
    /\ exists rest, url req = host (this w) ++ route_unscoped c ++ rest.
Proof.
  destruct c; unfold call_unscoped, Index.getTotalSize, Index.readDirectorySize,
    Index.axios, bind, get_this, lift; cbn beta iota;
    match goal with |- context [sent ?R w] => exists R end;
    (split; [destruct (adapter _ _); reflexivity | split; [reflexivity |]]);
    cbn [url route_unscoped]; eexists; reflexivity.
Qed.

(** C9 (as amended): every request a resource operation hands to the HTTP
    client carries the one header [Authorization: Bearer <the raw key>],
    and its URL is the session's host followed by [/files/...] for the
    functions of [file.ts] and, for the methods of the class, by
    [/api/files/...], [/api/directory/...] ([/api/directory?segment=...]
    for [readDirectoryBySegment]) or [/api/total-size]. *)
Theorem requests_carry_key_and_route T adapter (w : World) (req : request) :
  (forall c, In req (issued w (fst (call T adapter c w))) ->
     headers req = [("Authorization", "Bearer " ++ apiKey (this w))]
     /\ exists rest, url req = host (this w) ++ route c ++ rest)
  /\ (forall c, In req (issued w (fst (call_unscoped adapter c w))) ->
        headers req = [("Authorization", "Bearer " ++ apiKey (this w))]
        /\ exists rest, url req = host (this w) ++ route_unscoped c ++ rest).
Proof.
  split; intros c Hin.
  - destruct (isCommandAllowed (scope (this w)) (required_mask T c)) eqn:H.
    + destruct (call_allowed_request T adapter c w H) as [r [Hcall [Hh Hu]]].
      rewrite Hcall in Hin. cbn [fst] in Hin. rewrite issued_one in Hin.
      destruct Hin as [<- | []]. split; assumption.
    + rewrite (call_denied T adapter c w H) in Hin. cbn [fst] in Hin.
      rewrite issued_none in Hin. destruct Hin.
  - destruct (call_unscoped_request adapter c w) as [r [Hcall [Hh Hu]]].
    rewrite Hcall, issued_one in Hin.
    destruct Hin as [<- | []]. split; assumption.
Qed.

Lemma requests_carry_key_and_route_witness :
  (headers {| method := DELETE;
              url := "https://api.delta.storage/files/f";
              body := NoData;
              headers := [("Authorization", "Bearer k.4.u.h.e")] |}
   = [("Authorization", "Bearer k.4.u.h.e")]
   /\ exists rest,
        url {| method := DELETE;
               url := "https://api.delta.storage/files/f";
               body := NoData;
               headers := [("Authorization", "Bearer k.4.u.h.e")] |}
        = "https://api.delta.storage" ++ "/files/" ++ rest)
  /\ (headers {| method := GET;
                 url := "https://api.delta.storage/api/total-size";
                 body := NoData;
                 headers := [("Authorization", "Bearer k.4.u.h.e")] |}
      = [("Authorization", "Bearer k.4.u.h.e")]
      /\ exists rest,
           url {| method := GET;
                  url := "https://api.delta.storage/api/total-size";
                  body := NoData;
                  headers := [("Authorization", "Bearer k.4.u.h.e")] |}
           = "https://api.delta.storage" ++ "/api/total-size" ++ rest).
Proof.
  split.
  - apply (proj1 (requests_carry_key_and_route sample_scope (sample_adapter JNull)
                    (sample_client "k.4.u.h.e")
                    {| method := DELETE;
                       url := "https://api.delta.storage/files/f";
                       body := NoData;
                       headers := [("Authorization", "Bearer k.4.u.h.e")] |})
             (File_deleteFile "f")).
    left. reflexivity.
  - apply (proj2 (requests_carry_key_and_route sample_scope (sample_adapter JNull)
                    (sample_client "k.4.u.h.e")
                    {| method := GET;
                       url := "https://api.delta.storage/api/total-size";
                       body := NoData;
                       headers := [("Authorization", "Bearer k.4.u.h.e")] |})
             Index_getTotalSize).
    left. reflexivity.
Defined.

(** C9 (as stated) fails on the methods of the class, which put [/api]
    before the resource: [readFile] of a client on the production host asks
    for [/api/files/x], which is under none of [/files/], [/directory/] and
    [/total-size]. *)
Lemma Index_readFile_targets_api_prefix :
  host (this (sample_client "k.0.u.h.e")) = "https://api.delta.storage"
  /\ map url
       (issued (sample_client "k.0.u.h.e")
          (fst (call sample_scope (sample_adapter JNull)
                  (Index_readFile (Some "x")) (sample_client "k.0.u.h.e"))))
     = ["https://api.delta.storage/api/files/x"]
  /\ spec_path "https://api.delta.storage" "https://api.delta.storage/api/files/x"
     = false.
Proof. repeat split. Qed.

(** ** The credential codec *)

Lemma parseInt_base10_without_hex_prefix (s : string) :
  hex_prefix (snd (strip_sign (trim_start s))) = None ->
  parseInt s None = parse_base10 s.
Proof.
  unfold parse_base10, parseInt. intros H.
  destruct (strip_sign (trim_start s)) as [sign body]. cbn [snd] in H.
  change (ToInt32 (Num 10)) with 10.
  cbn [Z.eqb Z.ltb Z.compare Pos.compare Pos.compare_cont negb andb orb].
  now rewrite H.
Qed.

Lemma parseInt_base16_with_hex_prefix (s rest : string) :
  hex_prefix (snd (strip_sign (trim_start s))) = Some rest ->
  parseInt s None = parseInt s (Some 16).
Proof.
  unfold parseInt. intros H.
  destruct (strip_sign (trim_start s)) as [sign body]. cbn [snd] in H.
  change (ToInt32 (Num 16)) with 16.
  cbn [Z.eqb Z.ltb Z.compare Pos.compare Pos.compare_cont negb andb orb].
  now rewrite H.
Qed.

(** C10 (as amended): the constructor keeps the key as it is, splits it at
    the dots, stores [parseInt] of the second field as the scope (a base-10
    reading, except that a field starting, after white space and a sign,
    with 0x or 0X is read in base 16) and the fifth field, untouched, as
    the edge token; and whatever methods are called and change signals
    arrive afterwards, in whatever state, the fields [apiKey], [scope],
    [host] and [edgeToken] stay what they were. *)
Theorem credential_decoded_once T adapter (NODE_ENV : option string)
    (config : DeltaStorageConfig) (events : list event) :
  let fields := split "." (config_apiKey config) in
  let field2 := ToString (nth_error fields 1) in
  let w0 := constructor NODE_ENV config in
  apiKey (this w0) = config_apiKey config
  /\ scope (this w0) = parseInt field2 None
  /\ (hex_prefix (snd (strip_sign (trim_start field2))) = None ->
      scope (this w0) = parse_base10 field2)
  /\ (forall rest,
        hex_prefix (snd (strip_sign (trim_start field2))) = Some rest ->
        scope (this w0) = parseInt field2 (Some 16))
  /\ edgeToken (this w0) = nth_error fields 4
  /\ this (run T adapter events w0) = this w0
  /\ forall w, this (run T adapter events w) = this w.
Proof.
  intros fields field2 w0.
  split; [reflexivity | split; [reflexivity | split; [| split]]].
  - intros H. now apply parseInt_base10_without_hex_prefix.
  - intros rest H. now apply (parseInt_base16_with_hex_prefix field2 rest).
  - split; [reflexivity | split].
    + apply run_this.
    + intros w. apply run_this.
Qed.

(** C10 (as stated) fails on a second field with a hexadecimal prefix: the
    key [k.0x10.u.h.e] gets the scope 16, where a base-10 reading of
    [0x10] stops at the [x] and gives 0. *)
Lemma hexadecimal_scope_field :
  nth_error (split "." "k.0x10.u.h.e") 1 = Some "0x10"
  /\ scope (this (sample_client "k.0x10.u.h.e")) = Num 16
  /\ parse_base10 "0x10" = Num 0.
Proof. repeat split. Qed.

Lemma credential_decoded_once_witness :
  apiKey (this (sample_client "id.3.user.hash.edge")) = "id.3.user.hash.edge"
  /\ scope (this (sample_client "id.3.user.hash.edge")) = Num 3
  /\ edgeToken (this (sample_client "id.3.user.hash.edge")) = Some "edge"
  /\ this (run sample_scope (sample_adapter (JNumber (Num 7)))
             [Listener Index_connect;
              Listener (Index_onTotalSizeChange 0%nat);
              Scoped (Index_readFile None);
              DirectoryChange JNull;
              Scoped (Index_deleteDirectory "d")]
             (sample_client "id.3.user.hash.edge"))
     = this (sample_client "id.3.user.hash.edge").
Proof.
  pose proof (credential_decoded_once sample_scope
                (sample_adapter (JNumber (Num 7))) None
                {| config_apiKey := "id.3.user.hash.edge" |}
                [Listener Index_connect;
                 Listener (Index_onTotalSizeChange 0%nat);
                 Scoped (Index_readFile None);
                 DirectoryChange JNull;
                 Scoped (Index_deleteDirectory "d")]) as H.
  cbv zeta in H.
  destruct H as [Hkey [Hscope [_ [_ [Hedge [Hfixed _]]]]]].
  repeat split; assumption.
Defined.

(** * Further properties *)

(** ** The gate on composite masks and on related scopes *)

Lemma lor_small (a b : Z) :
  0 <= a < 2 ^ 31 -> 0 <= b < 2 ^ 31 -> 0 <= Z.lor a b < 2 ^ 31.
Proof.
  intros Ha Hb. split.
  - apply Z.lor_nonneg. lia.
  - destruct (Z.eq_dec (Z.lor a b) 0) as [-> | Hne]; [lia |].
    assert (0 <= Z.lor a b) by (apply Z.lor_nonneg; lia).
    apply Z.log2_lt_pow2; [lia |].
    rewrite Z.log2_lor by lia.
    apply Z.max_lub_lt.
    + destruct (Z.eq_dec a 0) as [-> | ?]; [cbn; lia |].
      apply Z.log2_lt_pow2; lia.
    + destruct (Z.eq_dec b 0) as [-> | ?]; [cbn; lia |].
      apply Z.log2_lt_pow2; lia.
Qed.

Lemma gate_on_small_mask (scope : number) (f : Z) :
  0 <= f < 2 ^ 31 ->
  isCommandAllowed scope (Num f)
  = if strict_eq scope (Num 0) then true
    else Z.land (ToInt32 scope) f =? f.
Proof.
  intros Hf. unfold isCommandAllowed, bitand.
  rewrite (ToInt32_small f) by lia. reflexivity.
Qed.

Lemma land_lor_absorbs (x a b : Z) :
  (Z.land x (Z.lor a b) =? Z.lor a b)
  = (Z.land x a =? a) && (Z.land x b =? b).
Proof.
  apply eq_true_iff_eq.
  rewrite andb_true_iff, !Z.eqb_eq, !land_absorbs_iff.
  split.
  - intros H. split; intros i Hi; apply H; rewrite Z.lor_spec, Hi;
      [reflexivity | apply orb_true_r].
  - intros [Ha Hb] i Hi. rewrite Z.lor_spec in Hi.
    apply orb_true_iff in Hi. destruct Hi; [now apply Ha | now apply Hb].
Qed.

Lemma gate_on_pair (scope : number) (a b : Z) :
  0 <= a < 2 ^ 31 -> 0 <= b < 2 ^ 31 ->
  isCommandAllowed scope (bitor (Num a) (Num b))
  = isCommandAllowed scope (Num a) && isCommandAllowed scope (Num b).
Proof.
  intros Ha Hb. unfold bitor.
  rewrite (ToInt32_small a), (ToInt32_small b) by lia.
  rewrite !gate_on_small_mask by (assumption || now apply lor_small).
  destruct (strict_eq scope (Num 0)); [reflexivity |].
  apply land_lor_absorbs.
Qed.

Lemma small_masks_inv T :
  small_masks T = true ->
  exists rf uf df rd cd dd,
    T = {| READ_FILE := Num rf; UPLOAD_FILE := Num uf; DELETE_FILE := Num df;
           READ_DIRECTORY := Num rd; CREATE_DIRECTORY := Num cd;
           DELETE_DIRECTORY := Num dd |}
    /\ 0 <= uf < 2 ^ 31 /\ 0 <= df < 2 ^ 31
    /\ 0 <= cd < 2 ^ 31 /\ 0 <= dd < 2 ^ 31.
Proof.
  destruct T as [rf uf df rd cd dd].
  unfold small_masks, capabilities. cbn [forallb READ_FILE UPLOAD_FILE DELETE_FILE
    READ_DIRECTORY CREATE_DIRECTORY DELETE_DIRECTORY].
  intros H.
  repeat (apply andb_true_iff in H; destruct H as [? H]).
  destruct rf as [| | rf], uf as [| | uf], df as [| | df], rd as [| | rd],
    cd as [| | cd], dd as [| | dd]; try discriminate.
  unfold small_mask in *.
  repeat match goal with
         | Hb : (_ && _) = true |- _ =>
             apply andb_true_iff in Hb; destruct Hb
         | Hb : (_ <=? _) = true |- _ => apply Z.leb_le in Hb
         | Hb : (_ <? _) = true |- _ => apply Z.ltb_lt in Hb
         end.
  exists rf, uf, df, rd, cd, dd. repeat split; assumption.
Qed.

(** X1: with capability masks below 2^31, an operation that asks for a
    pair of capabilities passes the gate exactly when the two operations
    asking for each one pass: renaming or updating a file needs what
    uploading and deleting need, renaming a directory or moving needs what
    creating and deleting a directory need. *)
Theorem composite_operations_need_both T (w : World) (id name : string)
    (name' : option string) (storageClasses : option (list string))
    (file : FormDataEntryValue) (children : list string)
    (files : option (list string)) :
  small_masks T = true ->
  passes T w (Index_renameFile id name)
  = passes T w (Index_uploadFile name file name id)
    && passes T w (Index_deleteFile id)
  /\ passes T w (File_renameFile id name)
     = passes T w (File_uploadFile name file name id storageClasses)
       && passes T w (File_deleteFile id)
  /\ passes T w (File_updateFile id name' storageClasses)
     = passes T w (File_uploadFile name file name id storageClasses)
       && passes T w (File_deleteFile id)
  /\ passes T w (Index_renameDirectory id name)
     = passes T w (Index_createDirectory name None)
       && passes T w (Index_deleteDirectory id)
  /\ passes T w (Index_move id children files)
     = passes T w (Index_createDirectory name None)
       && passes T w (Index_deleteDirectory id).
Proof.
  intros Hsmall.
  destruct (small_masks_inv T Hsmall)
    as [rf [uf [df [rd [cd [dd [-> [Hu [Hd [Hc Hdd]]]]]]]]]].
  unfold passes.
  cbn [required_mask UPLOAD_FILE DELETE_FILE CREATE_DIRECTORY DELETE_DIRECTORY].
  repeat split; now apply gate_on_pair.
Qed.

Lemma composite_operations_need_both_witness :
  passes sample_scope (sample_client "k.6.u.h.e") (Index_renameFile "f" "n")
  = passes sample_scope (sample_client "k.6.u.h.e")
      (Index_uploadFile "n" (Blob "x") "n" "f")
    && passes sample_scope (sample_client "k.6.u.h.e") (Index_deleteFile "f")
  /\ passes sample_scope (sample_client "k.6.u.h.e") (File_renameFile "f" "n")
     = passes sample_scope (sample_client "k.6.u.h.e")
         (File_uploadFile "n" (Blob "x") "n" "f" None)
       && passes sample_scope (sample_client "k.6.u.h.e") (File_deleteFile "f")
  /\ passes sample_scope (sample_client "k.6.u.h.e")
       (File_updateFile "f" None None)
     = passes sample_scope (sample_client "k.6.u.h.e")
         (File_uploadFile "n" (Blob "x") "n" "f" None)
       && passes sample_scope (sample_client "k.6.u.h.e") (File_deleteFile "f")
  /\ passes sample_scope (sample_client "k.6.u.h.e")
       (Index_renameDirectory "f" "n")
     = passes sample_scope (sample_client "k.6.u.h.e")
         (Index_createDirectory "n" None)
       && passes sample_scope (sample_client "k.6.u.h.e")
            (Index_deleteDirectory "f")
  /\ passes sample_scope (sample_client "k.6.u.h.e") (Index_move "f" [] None)
     = passes sample_scope (sample_client "k.6.u.h.e")
         (Index_createDirectory "n" None)
       && passes sample_scope (sample_client "k.6.u.h.e")
            (Index_deleteDirectory "f").
Proof.
  apply (composite_operations_need_both sample_scope (sample_client "k.6.u.h.e")
           "f" "n" None None (Blob "x") [] None).
  reflexivity.
Defined.

(** X2: among scopes other than 0, more bits never allow less: when every
    bit of [s1] is a bit of [s2], each mask below 2^31 that [s1] allows is
    allowed by [s2]. *)
Theorem wider_scope_allows_more (s1 s2 f : Z) :
  s1 <> 0 ->
  Z.land s2 s1 = s1 ->
  0 <= f < 2 ^ 31 ->
  isCommandAllowed (Num s1) (Num f) = true ->
  isCommandAllowed (Num s2) (Num f) = true.
Proof.
  intros Hs1 Hsub Hf Hallowed.
  assert (Hs2 : s2 <> 0).
  { intros ->. rewrite Z.land_0_l in Hsub. congruence. }
  apply isCommandAllowed_integer_scope in Hallowed; [| assumption ..].
  apply isCommandAllowed_integer_scope; [assumption .. |].
  intros i Hi. cbn [bit_set].
  apply (proj1 (land_absorbs_iff s2 s1) Hsub).
  now apply (Hallowed i).
Qed.

Lemma wider_scope_allows_more_witness :
  isCommandAllowed (Num 7) (Num 6) = true.
Proof.
  apply (wider_scope_allows_more 6 7 6); [lia | reflexivity | lia | reflexivity].
Defined.

Lemma ToInt32_period (s k : Z) :
  ToInt32 (Num (s + k * 2 ^ 32)) = ToInt32 (Num s).
Proof.
  unfold ToInt32.
  replace (s + k * 2 ^ 32 + 2 ^ 31) with (s + 2 ^ 31 + k * 2 ^ 32) by lia.
  now rewrite Z_mod_plus_full.
Qed.

(** X3: the gate sees a scope through its low 32 bits only: two scopes
    other than 0 that differ by a multiple of 2^32 allow the same masks;
    and a scope that is itself a multiple of 2^32, not being 0, is no
    unrestricted session: it allows no mask but 0. *)
Theorem scope_is_read_modulo_2_32 (s k : Z) (flag : number) :
  (s <> 0 -> s + k * 2 ^ 32 <> 0 ->
   isCommandAllowed (Num (s + k * 2 ^ 32)) flag = isCommandAllowed (Num s) flag)
  /\ (k <> 0 -> flag <> Num 0 ->
      isCommandAllowed (Num (k * 2 ^ 32)) flag = false).
Proof.
  split.
  - intros Hs Hsk. unfold isCommandAllowed, bitand.
    rewrite ToInt32_period. cbn [strict_eq].
    destruct (Z.eqb_spec (s + k * 2 ^ 32) 0), (Z.eqb_spec s 0);
      congruence || reflexivity.
  - intros Hk Hflag. unfold isCommandAllowed, bitand.
    change (k * 2 ^ 32) with (0 + k * 2 ^ 32) at 2.
    rewrite ToInt32_period. change (ToInt32 (Num 0)) with 0.
    rewrite Z.land_0_l. cbn [strict_eq].
    destruct (Z.eqb_spec (k * 2 ^ 32) 0) as [Hz | _]; [lia |].
    destruct flag as [| neg | f]; try reflexivity.
    cbn [strict_eq]. apply Z.eqb_neq. congruence.
Qed.

Lemma scope_is_read_modulo_2_32_witness :
  isCommandAllowed (Num 4294967299) (Num 2) = isCommandAllowed (Num 3) (Num 2)
  /\ isCommandAllowed (Num 4294967296) (Num 1) = false.
Proof.
  split.
  - apply (proj1 (scope_is_read_modulo_2_32 3 1 (Num 2))); lia.
  - apply (proj2 (scope_is_read_modulo_2_32 0 1 (Num 1)));
      [lia | discriminate].
Defined.

(** ** The codec on well-formed and on short keys *)

Lemma split_joined (sep : ascii) (fields : list string) :
  fields <> [] ->
  forallb (fun f => negb (occurs sep f)) fields = true ->
  split sep (join (String sep EmptyString) fields) = fields.
Proof.
  induction fields as [| f rest IH]; [congruence |].
  intros _ H. cbn [forallb] in H.
  apply andb_true_iff in H. destruct H as [Hf Hrest].
  apply negb_true_iff in Hf.
  destruct rest as [| g rest'].
  - cbn [join]. now apply split_without_separator.
  - change (join (String sep EmptyString) (f :: g :: rest'))
      with (f ++ String sep (join (String sep EmptyString) (g :: rest'))).
    rewrite (split_at_separator sep f _ Hf).
    f_equal. apply IH; [discriminate | assumption].
Qed.

(** X4: a key made of at least two dot-free fields joined by dots is taken
    apart by position: the scope is [parseInt] of the second field, the
    edge token is the fifth field when there is one and [undefined]
    otherwise, fields past the fifth are ignored, and the key itself is
    kept whole. *)
Theorem constructor_reads_fields_by_position (NODE_ENV : option string)
    (keyId scopeField : string) (others : list string) :
  forallb field (keyId :: scopeField :: others) = true ->
  let key := join "." (keyId :: scopeField :: others) in
  let self := this (constructor NODE_ENV {| config_apiKey := key |}) in
  apiKey self = key
  /\ scope self = parseInt scopeField None
  /\ edgeToken self = nth_error others 2.
Proof.
  intros Hfields key self.
  unfold self, constructor. cbn [this apiKey scope edgeToken config_apiKey].
  unfold key.
  rewrite (split_joined "." (keyId :: scopeField :: others))
    by (discriminate || exact Hfields).
  repeat split.
Qed.

Lemma constructor_reads_fields_by_position_witness :
  apiKey (this (sample_client "id.12.user.hash.edge.more"))
  = "id.12.user.hash.edge.more"
  /\ scope (this (sample_client "id.12.user.hash.edge.more"))
     = parseInt "12" None
  /\ edgeToken (this (sample_client "id.12.user.hash.edge.more")) = Some "edge".
Proof.
  apply (constructor_reads_fields_by_position None "id" "12"
           ["user"; "hash"; "edge"; "more"]).
  reflexivity.
Defined.

Lemma decimal_digit_cases (d : Z) :
  decimal_digit d = true ->
  d = 0 \/ d = 1 \/ d = 2 \/ d = 3 \/ d = 4 \/ d = 5 \/ d = 6 \/ d = 7
  \/ d = 8 \/ d = 9.
Proof.
  unfold decimal_digit. intros H.
  apply andb_true_iff in H. destruct H as [Hlo Hhi].
  apply Z.leb_le in Hlo, Hhi. lia.
Qed.

Ltac each_digit d H :=
  destruct (decimal_digit_cases d H)
    as [-> | [-> | [-> | [-> | [-> | [-> | [-> | [-> | [-> | ->]]]]]]]]].

Lemma digit_value_digit_char (d : Z) :
  decimal_digit d = true -> digit_value 10 (digit_char d) = Some d.
Proof. intros H. each_digit d H; reflexivity. Qed.

Lemma trim_start_numeral (d : Z) (rest : string) :
  decimal_digit d = true ->
  trim_start (String (digit_char d) rest) = String (digit_char d) rest.
Proof.
  intros H.
  each_digit d H; destruct rest as [| c2 [| c3 r3]]; reflexivity.
Qed.

Lemma strip_sign_numeral (d : Z) (rest : string) :
  decimal_digit d = true ->
  strip_sign (String (digit_char d) rest) = (1, String (digit_char d) rest).
Proof. intros H. each_digit d H; reflexivity. Qed.

Lemma leading_digits_numeral (digits : list Z) (tail : string) (acc : Z) :
  forallb decimal_digit digits = true ->
  ends_numeral tail = true ->
  leading_digits 10 (numeral digits ++ tail) (Some acc)
  = Some (fold_left (fun acc d => 10 * acc + d) digits acc).
Proof.
  revert acc. induction digits as [| d rest IH]; intros acc Hdigits Htail.
  - cbn [numeral String.append fold_left].
    destruct tail as [| c r]; [reflexivity |].
    cbn [ends_numeral] in Htail. cbn [leading_digits].
    destruct (digit_value 10 c); [discriminate | reflexivity].
  - cbn [forallb] in Hdigits.
    apply andb_true_iff in Hdigits. destruct Hdigits as [Hd Hrest].
    cbn [numeral String.append leading_digits fold_left].
    rewrite (digit_value_digit_char d Hd).
    now apply IH.
Qed.

Lemma Number_of_small_mathint (z : Z) :
  0 <= z < 2 ^ 53 -> Number_of_mathint z = Num z.
Proof.
  intros Hz. unfold Number_of_mathint.
  rewrite Z.abs_eq by lia.
  destruct (Z.leb_spec (Z.log2 z + 1) 53) as [_ | Hlen]; [reflexivity |].
  destruct (Z.eq_dec z 0) as [-> | Hne]; [cbn in Hlen; lia |].
  assert (Z.log2 z < 53) by (apply Z.log2_lt_pow2; lia).
  lia.
Qed.

(** X5: a scope field that starts with decimal digits, and goes on with
    nothing or with a character that is no digit, is read as the number
    those digits denote, leading zeros and trailing text notwithstanding
    (the text [0x...], read in base 16, apart); below 2^53 the scope is that
    very integer. *)
Theorem decimal_scope_field (NODE_ENV : option string) (keyId : string)
    (d : Z) (digits : list Z) (tail : string) (others : list string) :
  forallb field (keyId :: (numeral (d :: digits) ++ tail) :: others) = true ->
  forallb decimal_digit (d :: digits) = true ->
  ends_numeral tail = true ->
  hex_prefix (numeral (d :: digits) ++ tail) = None ->
  let key := join "." (keyId :: (numeral (d :: digits) ++ tail) :: others) in
  let self := this (constructor NODE_ENV {| config_apiKey := key |}) in
  scope self = Number_of_mathint (numeral_value (d :: digits))
  /\ (numeral_value (d :: digits) < 2 ^ 53 ->
      scope self = Num (numeral_value (d :: digits))).
Proof.
  intros Hfields Hdigits Htail Hhex key self.
  assert (Hscope : scope self
                   = Number_of_mathint (numeral_value (d :: digits))).
  { destruct (constructor_reads_fields_by_position NODE_ENV keyId _ others
                Hfields) as [_ [Hs _]].
    unfold self, key. rewrite Hs. clear Hs.
    pose proof Hdigits as Hd. cbn [forallb] in Hd.
    apply andb_true_iff in Hd. destruct Hd as [Hd Hrest].
    unfold parseInt.
    change (numeral (d :: digits) ++ tail)
      with (String (digit_char d) (numeral digits ++ tail)) in *.
    rewrite (trim_start_numeral d _ Hd), (strip_sign_numeral d _ Hd).
    cbn [Z.eqb negb andb orb]. rewrite Hhex.
    change (String (digit_char d) (numeral digits ++ tail))
      with (numeral [d] ++ (numeral digits ++ tail)).
    cbn [leading_digits numeral String.append].
    rewrite (digit_value_digit_char d Hd).
    rewrite (leading_digits_numeral digits tail _ Hrest Htail).
    unfold numeral_value. cbn [fold_left].
    now rewrite Z.mul_1_l. }
  split; [exact Hscope |].
  intros Hsmall. rewrite Hscope.
  apply Number_of_small_mathint. split; [| assumption].
  unfold numeral_value.
  assert (Hnonneg : forall l acc, forallb decimal_digit l = true -> 0 <= acc ->
                    0 <= fold_left (fun acc d => 10 * acc + d) l acc).
  { induction l as [| x l IH]; intros acc Hl Hacc; cbn [fold_left].
    - assumption.
    - cbn [forallb] in Hl. apply andb_true_iff in Hl. destruct Hl as [Hx Hl].
      apply IH; [assumption |].
      unfold decimal_digit in Hx. apply andb_true_iff in Hx.
      destruct Hx as [Hx _]. apply Z.leb_le in Hx. lia. }
  apply Hnonneg; [assumption | lia].
Qed.

Lemma decimal_scope_field_witness :
  scope (this (sample_client "id.012abc.user.hash.edge"))
  = Number_of_mathint 12
  /\ (12 < 2 ^ 53 ->
      scope (this (sample_client "id.012abc.user.hash.edge")) = Num 12).
Proof.
  apply (decimal_scope_field None "id" 0 [1; 2] "abc" ["user"; "hash"; "edge"]);
    reflexivity.
Defined.

(** X6: a key with fewer than five dot-separated fields leaves the edge
    token [undefined], and an upload through the class then sends the text
    [undefined] in the [edgeToken] field of its payload. *)
Theorem short_key_uploads_undefined_edgeToken T adapter
    (NODE_ENV : option string) (key name : string) (file : FormDataEntryValue)
    (collectionName directoryId : string) :
  (List.length (split "." key) < 5)%nat ->
  let w := constructor NODE_ENV {| config_apiKey := key |} in
  isCommandAllowed (scope (this w)) (UPLOAD_FILE T) = true ->
  edgeToken (this w) = None
  /\ exists req,
       issued w (fst (Index.uploadFile T adapter name file collectionName
                        directoryId w))
       = [req]
       /\ exists form,
            body req = MultipartData form
            /\ form_field "edgeToken" form = Some (Text "undefined").
Proof.
  intros Hshort w Hallowed.
  assert (Hnone : edgeToken (this w) = None).
  { unfold w, constructor. cbn [this edgeToken config_apiKey].
    apply nth_error_None. lia. }
  split; [exact Hnone |].
  unfold Index.uploadFile, Index.axios, bind, get_this.
  rewrite (verify_allowed _ _ _ _ Hallowed). cbn [fst].
  rewrite issued_one. eexists. split; [reflexivity |].
  eexists. split; [reflexivity |].
  rewrite Hnone. reflexivity.
Qed.

Lemma short_key_uploads_undefined_edgeToken_witness :
  edgeToken (this (sample_client "id.2.user.hash")) = None
  /\ exists req,
       issued (sample_client "id.2.user.hash")
         (fst (Index.uploadFile sample_scope (sample_adapter JNull) "n"
                 (Blob "x") "c" "d" (sample_client "id.2.user.hash")))
       = [req]
       /\ exists form,
            body req = MultipartData form
            /\ form_field "edgeToken" form = Some (Text "undefined").
Proof.
  apply (short_key_uploads_undefined_edgeToken sample_scope
           (sample_adapter JNull) None "id.2.user.hash" "n" (Blob "x") "c" "d").
  - cbn. lia.
  - reflexivity.
Defined.

(** ** Any path, any answer *)

Lemma split_length (sep : ascii) (s : string) :
  List.length (split sep s) = S (count_char sep s).
Proof.
  induction s as [| c r IH]; cbn [split count_char].
  - reflexivity.
  - destruct (Ascii.eqb c sep).
    + cbn [List.length]. now rewrite IH.
    + destruct (split sep r) as [| h t] eqn:Hsplit.
      * now apply split_nonempty in Hsplit.
      * exact IH.
Qed.

Lemma readDirectoryBySegment_pieces T adapter (w : World) (segments : string) :
  isCommandAllowed (scope (this w)) (READ_DIRECTORY T) = true ->
  exists req,
    Index.readDirectoryBySegment T adapter segments w
    = (sent req w, adapter (network w) req)
    /\ method req = GET
    /\ url req
       = host (this w) ++ "/api/directory?"
         ++ join "&" (map (String.append "segment=") (split "/" segments))
    /\ List.length (split "/" segments) = S (count_char "/" segments).
Proof.
  intros Hallowed.
  unfold Index.readDirectoryBySegment, Index.axios, bind, get_this.
  rewrite (verify_allowed _ _ _ _ Hallowed).
  eexists. split; [reflexivity | split; [reflexivity | split]].
  - cbn [url].
    rewrite <- (join_segments (split "/" segments)) by apply split_nonempty.
    reflexivity.
  - apply split_length.
Qed.

(** X8: what the size queries make of the answer: a transport failure is
    passed on as it is; a body that is an object without [totalSize] (or
    not an object at all) fulfils with [undefined], no error; a body that
    is [null] or [undefined] rejects with a [TypeError]. Exactly one
    request has been made in each case. *)
Theorem size_queries_on_odd_answers adapter (c : unscoped_call) (w : World) :
  (forall e,
      (forall history req, adapter history req = Rejected e) ->
      snd (call_unscoped adapter c w) = Rejected e)
  /\ (forall result,
         (forall history req, adapter history req = Fulfilled result) ->
         match data result with
         | JObject props =>
             snd (call_unscoped adapter c w)
             = Fulfilled (own_property "totalSize" props)
         | JNull | JUndefined =>
             exists message,
               snd (call_unscoped adapter c w) = Rejected (TypeError message)
         | _ => snd (call_unscoped adapter c w) = Fulfilled JUndefined
         end)
  /\ exists req, issued w (fst (call_unscoped adapter c w)) = [req].
Proof.
  destruct (call_unscoped_run adapter c w) as [req [_ Hrun]].
  rewrite Hrun. cbn [fst snd]. split; [| split].
  - intros e Hfail. now rewrite Hfail.
  - intros result Hanswer. rewrite Hanswer.
    destruct (data result); cbn [get_property]; try reflexivity;
      eexists; reflexivity.
  - exists req. apply issued_one.
Qed.

Lemma size_queries_on_odd_answers_witness :
  snd (call_unscoped (fun _ _ => Rejected (TransportFailure (JString "503")))
         Index_getTotalSize (sample_client "k.1.u.h.e"))
  = Rejected (TransportFailure (JString "503"))
  /\ snd (call_unscoped
            (fun _ _ => Fulfilled {| data := JObject [("size", JBigInt 5)];
                                     status := 200 |})
            (Index_readDirectorySize "d") (sample_client "k.1.u.h.e"))
     = Fulfilled JUndefined.
Proof.
  split.
  - apply (proj1 (size_queries_on_odd_answers
                    (fun _ _ => Rejected (TransportFailure (JString "503")))
                    Index_getTotalSize (sample_client "k.1.u.h.e"))).
    reflexivity.
  - apply (proj1 (proj2 (size_queries_on_odd_answers
                           (fun _ _ =>
                              Fulfilled {| data := JObject [("size", JBigInt 5)];
                                           status := 200 |})
                           (Index_readDirectorySize "d")
                           (sample_client "k.1.u.h.e")))
             {| data := JObject [("size", JBigInt 5)]; status := 200 |}).
    reflexivity.
Defined.

(** ** What the operations leave alone *)

Lemma call_frame T adapter (c : scoped_call) (w : World) :
  listener (fst (call T adapter c w)) = listener w
  /\ invoked (fst (call T adapter c w)) = invoked w.
Proof.
  destruct (isCommandAllowed (scope (this w)) (required_mask T c)) eqn:H.
  - destruct (call_allowed T adapter c w H) as [req ->]. split; reflexivity.
  - rewrite (call_denied T adapter c w H). split; reflexivity.
Qed.

(** X9: the resource operations never touch the socket nor call a
    caller's function; the listener methods never send an HTTP request and
    never call a caller's function themselves. *)
Theorem operations_keep_to_their_side T adapter (w : World) :
  (forall c, listener (fst (call T adapter c w)) = listener w
             /\ invoked (fst (call T adapter c w)) = invoked w)
  /\ (forall c, listener (fst (call_unscoped adapter c w)) = listener w
                /\ invoked (fst (call_unscoped adapter c w)) = invoked w)
  /\ (forall c, network (fst (call_listener c w)) = network w
                /\ invoked (fst (call_listener c w)) = invoked w).
Proof.
  split; [| split]; intros c.
  - apply call_frame.
  - destruct (call_unscoped_run adapter c w) as [req [_ ->]].
    split; reflexivity.
  - destruct c; repeat split.
Qed.

Lemma request_of_session T adapter1 adapter2 (c : scoped_call) (w1 w2 : World) :
  this w1 = this w2 ->
  issued w1 (fst (call T adapter1 c w1)) = issued w2 (fst (call T adapter2 c w2)).
Proof.
  intros Hthis.
  destruct (isCommandAllowed (scope (this w1)) (required_mask T c)) eqn:H1.
  - assert (H2 : isCommandAllowed (scope (this w2)) (required_mask T c) = true)
      by now rewrite <- Hthis.
    revert H1 H2.
    destruct c; cbn [required_mask]; intros H1 H2; unfold_call;
      rewrite (verify_allowed _ _ _ _ H1), (verify_allowed _ _ _ _ H2);
      cbn [fst]; rewrite !issued_one, Hthis; reflexivity.
  - assert (H2 : isCommandAllowed (scope (this w2)) (required_mask T c) = false)
      by now rewrite <- Hthis.
    rewrite (call_denied T adapter1 c w1 H1), (call_denied T adapter2 c w2 H2).
    cbn [fst]. now rewrite !issued_none.
Qed.

(** X10: what a gated operation sends depends on the session fields and
    its arguments alone: not on the requests made before, not on what the
    HTTP client answered, not on the socket. After any calls and change
    signals, the same call sends the same request as it would have sent
    right away. *)
Theorem requests_do_not_depend_on_history T adapter1 adapter2
    (events : list event) (c : scoped_call) (w : World) :
  issued (run T adapter1 events w)
    (fst (call T adapter1 c (run T adapter1 events w)))
  = issued w (fst (call T adapter2 c w)).
Proof.
  apply request_of_session. apply run_this.
Qed.

(** ** The two versions of the file operations *)

(** X11: [readFile], [deleteFile] and [renameFile] of [file.ts] and the
    methods of the same names in the class are denied on the same sessions
    with the same error; when allowed, they send the same method, body and
    headers, to URLs that differ by the [/api] the class puts after the
    host. *)
Theorem file_functions_mirror_methods T adapter (w : World)
    (index_call file_call : scoped_call) (id name : string)
    (id' : option string) :
  In (index_call, file_call)
     [(Index_readFile id', File_readFile id');
      (Index_deleteFile id, File_deleteFile id);
      (Index_renameFile id name, File_renameFile id name)] ->
  (exists e,
      call T adapter index_call w = (w, Rejected e)
      /\ call T adapter file_call w = (w, Rejected e))
  \/ (exists verb path content,
         issued w (fst (call T adapter index_call w))
         = [{| method := verb; url := host (this w) ++ "/api" ++ path;
               body := content; headers := bearer (this w) |}]
         /\ issued w (fst (call T adapter file_call w))
            = [{| method := verb; url := host (this w) ++ path;
                  body := content; headers := bearer (this w) |}]).
Proof.
  intros Hin.
  assert (Hmask : required_mask T index_call = required_mask T file_call
                  /\ denial_message index_call = denial_message file_call).
  { destruct Hin as [H | [H | [H | []]]]; inversion H; split; reflexivity. }
  destruct Hmask as [Hmask Hmessage].
  destruct (isCommandAllowed (scope (this w)) (required_mask T index_call))
    eqn:Hgate.
  - right.
    assert (Hgate' : isCommandAllowed (scope (this w))
                       (required_mask T file_call) = true)
      by now rewrite <- Hmask.
    destruct Hin as [H | [H | [H | []]]]; inversion H; subst;
      cbn [required_mask] in Hgate, Hgate'; unfold_call;
      rewrite !(verify_allowed _ _ _ _ Hgate); cbn [fst];
      rewrite !issued_one; do 3 eexists; split; reflexivity.
  - left. exists (Error (denial_message index_call)). split.
    + now apply call_denied.
    + rewrite Hmessage. apply call_denied. now rewrite <- Hmask.
Qed.

Lemma file_functions_mirror_methods_witness :
  (exists e,
      call sample_scope (sample_adapter JNull) (Index_deleteFile "f")
        (sample_client "k.4.u.h.e")
      = (sample_client "k.4.u.h.e", Rejected e)
      /\ call sample_scope (sample_adapter JNull) (File_deleteFile "f")
           (sample_client "k.4.u.h.e")
         = (sample_client "k.4.u.h.e", Rejected e))
  \/ (exists verb path content,
         issued (sample_client "k.4.u.h.e")
           (fst (call sample_scope (sample_adapter JNull) (Index_deleteFile "f")
                   (sample_client "k.4.u.h.e")))
         = [{| method := verb;
               url := "https://api.delta.storage" ++ "/api" ++ path;
               body := content;
               headers := bearer (this (sample_client "k.4.u.h.e")) |}]
         /\ issued (sample_client "k.4.u.h.e")
              (fst (call sample_scope (sample_adapter JNull) (File_deleteFile "f")
                      (sample_client "k.4.u.h.e")))
            = [{| method := verb;
                  url := "https://api.delta.storage" ++ path;
                  body := content;
                  headers := bearer (this (sample_client "k.4.u.h.e")) |}]).
Proof.
  apply (file_functions_mirror_methods sample_scope (sample_adapter JNull)
           (sample_client "k.4.u.h.e") (Index_deleteFile "f")
           (File_deleteFile "f") "f" "n" None).
  right. left. reflexivity.
Defined.

(** ** Change signals *)

Lemma issued_length (before after : World) :
  List.length (issued before after)
  = (List.length (network after) - List.length (network before))%nat.
Proof. unfold issued. apply length_skipn. Qed.

Lemma run_listener_requests T adapter (payload : jsval) (fn : listener_fn)
    (w : World) :
  List.length (network (Index.run_listener T adapter payload fn w))
  = (List.length (network w)
     + refreshes (isCommandAllowed (scope (this w)) (READ_DIRECTORY T)) fn)%nat.
Proof.
  destruct fn as [cb | cb | id cb | segments cb];
    cbn [Index.run_listener refreshes].
  - cbn [invoke network]. lia.
  - destruct (call_unscoped_run adapter Index_getTotalSize w) as [req [_ Hrun]].
    cbn [call_unscoped] in Hrun. rewrite Hrun.
    cbn [await_then sent network]. rewrite length_app. reflexivity.
  - destruct (isCommandAllowed (scope (this w)) (READ_DIRECTORY T)) eqn:H.
    + destruct (call_allowed T adapter (Index_readDirectory (Some id)) w H)
        as [req Hrun].
      cbn [call] in Hrun. rewrite Hrun.
      cbn [await_then sent network]. rewrite length_app. reflexivity.
    + pose proof (call_denied T adapter (Index_readDirectory (Some id)) w H)
        as Hrun.
      cbn [call] in Hrun. rewrite Hrun. cbn [await_then network]. lia.
  - destruct (isCommandAllowed (scope (this w)) (READ_DIRECTORY T)) eqn:H.
    + destruct (call_allowed T adapter (Index_readDirectoryBySegment segments)
                  w H) as [req Hrun].
      cbn [call] in Hrun. rewrite Hrun.
      cbn [await_then sent network]. rewrite length_app. reflexivity.
    + pose proof (call_denied T adapter (Index_readDirectoryBySegment segments)
                    w H) as Hrun.
      cbn [call] in Hrun. rewrite Hrun. cbn [await_then network]. lia.
Qed.

Lemma listeners_requests T adapter (payload : jsval) (fns : list listener_fn)
    (w : World) :
  List.length
    (network (fold_left (fun w fn => Index.run_listener T adapter payload fn w)
                        fns w))
  = (List.length (network w)
     + list_sum (map (refreshes (isCommandAllowed (scope (this w))
                                   (READ_DIRECTORY T))) fns))%nat.
Proof.
  revert w. induction fns as [| fn fns IH]; intros w; cbn [fold_left map].
  - change (list_sum []) with 0%nat. lia.
  - rewrite IH, run_listener_this, run_listener_requests.
    match goal with
    | |- context [list_sum (?a :: ?l)] =>
        change (list_sum (a :: l)) with (a + list_sum l)%nat
    end.
    lia.
Qed.

(** X12: a [directory:change] reaching a connected socket makes one HTTP
    request for each registered total-size closure, one for each registered
    directory watcher if the key grants [READ_DIRECTORY] and none for them
    otherwise, and none for a plain callback; nothing is merged, a function
    registered twice refreshes twice. *)
Theorem change_signal_requests T adapter (payload : jsval) (w : World) :
  connected (listener w) = true ->
  List.length (issued w (Index.directory_change_event T adapter payload w))
  = list_sum (map (refreshes (isCommandAllowed (scope (this w))
                                (READ_DIRECTORY T)))
                  (directory_change (listener w))).
Proof.
  intros Hconnected.
  rewrite issued_length. unfold Index.directory_change_event.
  rewrite Hconnected, listeners_requests. lia.
Qed.

Lemma change_signal_requests_witness :
  List.length
    (issued
       (run sample_scope (sample_adapter JNull)
          [Listener Index_connect;
           Listener (Index_onTotalSizeChange 1%nat);
           Listener (Index_onTotalSizeChange 1%nat);
           Listener (Index_onDirectoryChange 2%nat);
           Listener (Index_onReadDirectoryEvent "d" 3%nat)]
          (sample_client "k.1.u.h.e"))
       (Index.directory_change_event sample_scope (sample_adapter JNull) JNull
          (run sample_scope (sample_adapter JNull)
             [Listener Index_connect;
              Listener (Index_onTotalSizeChange 1%nat);
              Listener (Index_onTotalSizeChange 1%nat);
              Listener (Index_onDirectoryChange 2%nat);
              Listener (Index_onReadDirectoryEvent "d" 3%nat)]
             (sample_client "k.1.u.h.e"))))
  = 2%nat.
Proof.
  apply (change_signal_requests sample_scope (sample_adapter JNull) JNull
           (run sample_scope (sample_adapter JNull)
              [Listener Index_connect;
               Listener (Index_onTotalSizeChange 1%nat);
               Listener (Index_onTotalSizeChange 1%nat);
               Listener (Index_onDirectoryChange 2%nat);
               Listener (Index_onReadDirectoryEvent "d" 3%nat)]
              (sample_client "k.1.u.h.e"))).
  reflexivity.
Defined.

Lemma resume_last (cb : callback) (promise : settled jsval) (w : World) :
  Index.resume (List.length (awaited w)) (await_then cb promise w)
  = match promise with
    | Fulfilled value => invoke cb value w
    | Rejected e => unhandled_rejection e w
    end.
Proof.
  unfold Index.resume, resumed. cbn [await_then awaited].
  rewrite nth_error_app2, Nat.sub_diag by lia. cbn [nth_error].
  rewrite firstn_app, Nat.sub_diag, firstn_all, skipn_all2
    by (rewrite length_app; cbn [List.length]; lia).
  cbn [firstn]. rewrite !app_nil_r.
  destruct w as [self socket net inv aw un].
  destruct promise; reflexivity.
Qed.

(** X13: watching a directory is not gated at registration: on a session
    whose scope does not allow [READ_DIRECTORY], [onReadDirectoryEvent]
    still announces the watch to the server and registers its closure. On a
    change signal that closure (and that of
    [onReadDirectorySegmentChange]) sends no request and is left awaiting
    a promise already rejected with the [READ_DIRECTORY] denial; when it
    goes on, the caller's function is not called and the denial ends as a
    rejection that no handler receives. *)
Theorem unauthorized_watcher_is_never_called T adapter (w : World)
    (id segments : string) (onChange : callback) (payload : jsval) :
  isCommandAllowed (scope (this w)) (READ_DIRECTORY T) = false ->
  let denial := Error "READ_DIRECTORY is not allowed." in
  (let w' := fst (Index.onReadDirectoryEvent id onChange w) in
   emitted (listener w') = (emitted (listener w) ++ ["directory:initialize"])%list
   /\ directory_change (listener w')
      = (directory_change (listener w) ++ [ReadDirectoryEvent id onChange])%list)
  /\ Index.run_listener T adapter payload (ReadDirectoryEvent id onChange) w
     = await_then onChange (Rejected denial) w
  /\ Index.run_listener T adapter payload
       (ReadDirectorySegmentChange segments onChange) w
     = await_then onChange (Rejected denial) w
  /\ (let after := Index.resume (List.length (awaited w))
                     (await_then onChange (Rejected denial) w) in
      network after = network w
      /\ invoked after = invoked w
      /\ awaited after = awaited w
      /\ unhandled after = (unhandled w ++ [denial])%list).
Proof.
  intros Hdenied denial. split; [split; reflexivity | split; [| split]].
  - pose proof (call_denied T adapter (Index_readDirectory (Some id)) w Hdenied)
      as Hrun.
    cbn [call] in Hrun. cbn [Index.run_listener]. now rewrite Hrun.
  - pose proof (call_denied T adapter (Index_readDirectoryBySegment segments) w
                  Hdenied) as Hrun.
    cbn [call] in Hrun. cbn [Index.run_listener]. now rewrite Hrun.
  - cbv zeta. rewrite resume_last. repeat split.
Qed.

Lemma unauthorized_watcher_is_never_called_witness :
  (emitted (listener (fst (Index.onReadDirectoryEvent "d" 0%nat
                             (sample_client "k.1.u.h.e"))))
   = ["directory:initialize"]
   /\ directory_change (listener (fst (Index.onReadDirectoryEvent "d" 0%nat
                                         (sample_client "k.1.u.h.e"))))
      = [ReadDirectoryEvent "d" 0%nat])
  /\ Index.run_listener sample_scope (sample_adapter JNull) JNull
       (ReadDirectoryEvent "d" 0%nat) (sample_client "k.1.u.h.e")
     = await_then 0%nat (Rejected (Error "READ_DIRECTORY is not allowed."))
         (sample_client "k.1.u.h.e")
  /\ Index.run_listener sample_scope (sample_adapter JNull) JNull
       (ReadDirectorySegmentChange "a/b" 0%nat) (sample_client "k.1.u.h.e")
     = await_then 0%nat (Rejected (Error "READ_DIRECTORY is not allowed."))
         (sample_client "k.1.u.h.e")
  /\ network (Index.resume 0
                (await_then 0%nat (Rejected (Error "READ_DIRECTORY is not allowed."))
                   (sample_client "k.1.u.h.e")))
     = []
  /\ invoked (Index.resume 0
                (await_then 0%nat (Rejected (Error "READ_DIRECTORY is not allowed."))
                   (sample_client "k.1.u.h.e")))
     = []
  /\ awaited (Index.resume 0
                (await_then 0%nat (Rejected (Error "READ_DIRECTORY is not allowed."))
                   (sample_client "k.1.u.h.e")))
     = []
  /\ unhandled (Index.resume 0
                  (await_then 0%nat
                     (Rejected (Error "READ_DIRECTORY is not allowed."))
                     (sample_client "k.1.u.h.e")))
     = [Error "READ_DIRECTORY is not allowed."].
Proof.
  apply (unauthorized_watcher_is_never_called sample_scope (sample_adapter JNull)
           (sample_client "k.1.u.h.e") "d" "a/b" 0%nat JNull).
  reflexivity.
Defined.

(** X14: a refresh closure drops what the signal itself carried: its effect
    is the same for every payload. On a signal the total-size closure hands
    the HTTP client one GET of [/api/total-size] with the Bearer header and
    is left awaiting its answer; when it goes on, it calls the caller's
    function once with the [totalSize] of the answer, or, the request
    having failed, does not call it and ends with that failure as a
    rejection that no handler receives. *)
Theorem refresh_closures_fetch_anew T adapter (w : World) (cb : callback)
    (payload payload' : jsval) (fn : listener_fn) :
  (forall caller, fn <> Callback caller) ->
  let req := {| method := GET;
                url := host (this w) ++ "/api/total-size";
                body := NoData;
                headers := [("Authorization", "Bearer " ++ apiKey (this w))] |} in
  let answer := match adapter (network w) req with
                | Fulfilled result => get_property (data result) "totalSize"
                | Rejected e => Rejected e
                end in
  let suspended := Index.run_listener T adapter payload (TotalSizeChange cb) w in
  Index.run_listener T adapter payload fn w
  = Index.run_listener T adapter payload' fn w
  /\ suspended = await_then cb answer (sent req w)
  /\ Index.resume (List.length (awaited w)) suspended
     = match answer with
       | Fulfilled totalSize => invoke cb totalSize (sent req w)
       | Rejected e => unhandled_rejection e (sent req w)
       end.
Proof.
  intros Hfn req answer suspended.
  assert (Hsuspended : suspended = await_then cb answer (sent req w)).
  { unfold suspended, answer, req. cbn [Index.run_listener].
    unfold Index.getTotalSize, Index.axios, bind, get_this, lift, bearer.
    cbn beta iota.
    destruct (adapter _ _) as [result | e]; reflexivity. }
  split; [| split].
  - destruct fn as [caller | | |]; [now destruct (Hfn caller) | ..];
      reflexivity.
  - exact Hsuspended.
  - rewrite Hsuspended.
    change (awaited w) with (awaited (sent req w)).
    apply resume_last.
Qed.

Lemma refresh_closures_fetch_anew_witness :
  Index.run_listener sample_scope (sample_adapter (JBigInt 7)) JNull
    (TotalSizeChange 0%nat) (sample_client "k.1.u.h.e")
  = Index.run_listener sample_scope (sample_adapter (JBigInt 7))
      (JString "changed") (TotalSizeChange 0%nat) (sample_client "k.1.u.h.e")
  /\ Index.run_listener sample_scope (sample_adapter (JBigInt 7)) JNull
       (TotalSizeChange 0%nat) (sample_client "k.1.u.h.e")
     = await_then 0%nat (Fulfilled (JBigInt 7))
         (sent {| method := GET;
                  url := "https://api.delta.storage/api/total-size";
                  body := NoData;
                  headers := [("Authorization", "Bearer k.1.u.h.e")] |}
               (sample_client "k.1.u.h.e"))
  /\ Index.resume 0
       (Index.run_listener sample_scope (sample_adapter (JBigInt 7)) JNull
          (TotalSizeChange 0%nat) (sample_client "k.1.u.h.e"))
     = invoke 0%nat (JBigInt 7)
         (sent {| method := GET;
                  url := "https://api.delta.storage/api/total-size";
                  body := NoData;
                  headers := [("Authorization", "Bearer k.1.u.h.e")] |}
               (sample_client "k.1.u.h.e")).
Proof.
  apply (refresh_closures_fetch_anew sample_scope (sample_adapter (JBigInt 7))
           (sample_client "k.1.u.h.e") 0%nat JNull (JString "changed")
           (TotalSizeChange 0%nat)).
  discriminate.
Defined.

(** X15: [disconnectReadDirectoryEvent] takes every function off
    [directory:change], whichever method registered it (total-size
    closures and plain callbacks as well as directory watchers), and leaves
    the connection as it is: the next change signal changes nothing. *)
Theorem disconnectReadDirectoryEvent_removes_all T adapter (w : World)
    (payload : jsval) :
  let w' := fst (Index.disconnectReadDirectoryEvent w) in
  directory_change (listener w') = []
  /\ connected (listener w') = connected (listener w)
  /\ Index.directory_change_event T adapter payload w' = w'.
Proof.
  cbv zeta. repeat split.
  unfold Index.directory_change_event, Index.disconnectReadDirectoryEvent,
    with_listener.
  cbn [fst listener connected directory_change].
  destruct (connected (listener w)); reflexivity.
Qed.

(** ** The text of the storage classes can be read back *)

Lemma append_empty_r (s : string) : s ++ EmptyString = s.
Proof.
  induction s as [| c s IH]; cbn [String.append]; [reflexivity | now rewrite IH].
Qed.

Lemma snoc_append (cur : string) (c : ascii) (x : string) :
  snoc cur c ++ x = cur ++ String c x.
Proof. unfold snoc. now rewrite append_assoc. Qed.

Lemma read_quoted_char (c : ascii) (more cur : string) (done : list string) :
  read_items (quote_char c ++ more) (Some cur) done
  = read_items more (Some (snoc cur c)) done.
Proof.
  destruct c as [[] [] [] [] [] [] [] []]; reflexivity.
Qed.

Lemma read_quoted_chars (x more cur : string) (done : list string) :
  read_items (quote_chars x ++ more) (Some cur) done
  = read_items more (Some (cur ++ x)) done.
Proof.
  revert cur. induction x as [| c x IH]; intros cur.
  - cbn [quote_chars String.append]. now rewrite append_empty_r.
  - cbn [quote_chars]. rewrite append_assoc, read_quoted_char, IH.
    now rewrite snoc_append.
Qed.

Lemma read_quoted_string (x more : string) (done : list string) :
  read_items (QuoteJSONString x ++ more) None done
  = read_items more None (x :: done).
Proof.
  unfold QuoteJSONString.
  change (String double_quote (quote_chars x ++ String double_quote EmptyString)
          ++ more)
    with (String double_quote
            ((quote_chars x ++ String double_quote EmptyString) ++ more)).
  rewrite append_assoc.
  change (String double_quote EmptyString ++ more)
    with (String double_quote more).
  change (read_items (String double_quote (quote_chars x ++ String double_quote more))
            None done)
    with (read_items (quote_chars x ++ String double_quote more)
            (Some EmptyString) done).
  rewrite read_quoted_chars.
  reflexivity.
Qed.

Lemma read_joined (items : list string) (done : list string) :
  read_items (join "," (map QuoteJSONString items) ++ "]") None done
  = Some (rev done ++ items)%list.
Proof.
  revert done. induction items as [| x rest IH]; intros done.
  - cbn [map join String.append read_items].
    cbn. now rewrite app_nil_r.
  - destruct rest as [| y rest'].
    + cbn [map join]. rewrite read_quoted_string.
      reflexivity.
    + change (join "," (map QuoteJSONString (x :: y :: rest')))
        with (QuoteJSONString x
              ++ "," ++ join "," (map QuoteJSONString (y :: rest'))).
      rewrite !append_assoc, read_quoted_string.
      assert (Hcomma : forall more d,
                 read_items ("," ++ more) None d = read_items more None d)
        by reflexivity.
      rewrite Hcomma.
      rewrite IH. cbn [rev]. now rewrite <- app_assoc.
Qed.

(** X16: the text [uploadFile] of [file.ts] sends for the storage classes
    tells the list exactly: reading the text back gives the list, whatever
    characters its strings hold (quotes, backslashes, control characters),
    so two different lists are never sent as the same text. *)
Theorem storage_classes_text_reads_back (storageClasses : list string) :
  JSON_parse (JSON_stringify storageClasses) = Some storageClasses
  /\ forall others,
       JSON_stringify storageClasses = JSON_stringify others ->
       storageClasses = others.
Proof.
  assert (Hread : forall items, JSON_parse (JSON_stringify items) = Some items).
  { intros items. unfold JSON_stringify.
    change (JSON_parse ("[" ++ join "," (map QuoteJSONString items) ++ "]"))
      with (read_items (join "," (map QuoteJSONString items) ++ "]") None []).
    apply read_joined. }
  split; [apply Hread |].
  intros others Heq.
  pose proof (Hread storageClasses) as H1.
  rewrite Heq, Hread in H1. congruence.
Qed.

(** ** The host and the socket of a new client *)

Lemma last_char_snoc (s : string) (c : ascii) :
  last_char (s ++ String c EmptyString) = Some c.
Proof.
  induction s as [| d s IH]; [reflexivity |].
  cbn [String.append last_char]. rewrite IH.
  destruct (s ++ String c EmptyString) eqn:Hs; [| reflexivity].
  destruct s; discriminate.
Qed.

Lemma drop_last_snoc (s : string) (c : ascii) :
  drop_last (s ++ String c EmptyString) = s.
Proof.
  induction s as [| d s IH]; [reflexivity |].
  cbn [String.append drop_last]. rewrite IH.
  destruct (s ++ String c EmptyString) eqn:Hs; [| reflexivity].
  destruct s; discriminate.
Qed.

(** X17: the trailing-slash rule of the constructor takes one slash off
    the end of a host and no more (a host written with two keeps one), and
    leaves a host that does not end with a slash as it is. *)
Theorem strip_trailing_slash_once (s : string) :
  strip_trailing_slash (s ++ "/") = s
  /\ (last_char s <> Some "/"%char -> strip_trailing_slash s = s).
Proof.
  split.
  - unfold strip_trailing_slash.
    rewrite last_char_snoc, Ascii.eqb_refl. apply drop_last_snoc.
  - intros Hlast. unfold strip_trailing_slash.
    destruct (last_char s) as [c |]; [| reflexivity].
    destruct (Ascii.eqb_spec c "/"); [congruence | reflexivity].
Qed.

Lemma strip_trailing_slash_once_witness :
  strip_trailing_slash ("http://localhost:1337/" ++ "/") = "http://localhost:1337/"
  /\ strip_trailing_slash "http://localhost:1337" = "http://localhost:1337".
Proof.
  split.
  - apply (proj1 (strip_trailing_slash_once "http://localhost:1337/")).
  - apply (proj2 (strip_trailing_slash_once "http://localhost:1337")).
    discriminate.
Defined.

(** X18: a new client talks to the local server exactly when [NODE_ENV] is
    the text [development], and to the production server in every other
    case (the key plays no part); its socket is made for that same host,
    with the raw key as token, not yet connected and with nothing
    registered, and no request has been made. *)
Theorem constructor_host_and_socket (NODE_ENV : option string)
    (config : DeltaStorageConfig) :
  let w := constructor NODE_ENV config in
  (NODE_ENV = Some "development" -> host (this w) = "http://localhost:1337")
  /\ (NODE_ENV <> Some "development" ->
      host (this w) = "https://api.delta.storage")
  /\ uri (listener w) = host (this w)
  /\ auth_token (listener w) = config_apiKey config
  /\ connected (listener w) = false
  /\ directory_change (listener w) = []
  /\ network w = [].
Proof.
  cbv zeta. split; [| split; [| repeat split]].
  - intros ->. reflexivity.
  - intros Hother. unfold constructor. cbn [this host].
    destruct NODE_ENV as [env |]; [| reflexivity].
    destruct (String.eqb_spec env "development") as [-> | _];
      [congruence | reflexivity].
Qed.

(** ** The query string, read as parameters *)

Lemma occurs_append (c : ascii) (a b : string) :
  occurs c (a ++ b) = occurs c a || occurs c b.
Proof.
  induction a as [| d a IH]; cbn [String.append occurs]; [reflexivity |].
  now rewrite IH, orb_assoc.
Qed.

Lemma pieces_without (c sep : ascii) (s : string) :
  occurs c s = false ->
  forallb (fun piece => negb (occurs c piece)) (split sep s) = true.
Proof.
  induction s as [| d s IH]; cbn [occurs split]; intros H.
  - reflexivity.
  - apply orb_false_iff in H. destruct H as [Hd Hs].
    specialize (IH Hs).
    destruct (Ascii.eqb d sep).
    + cbn [forallb occurs negb andb]. exact IH.
    + destruct (split sep s) as [| h t]; cbn [forallb occurs] in *.
      * now rewrite Hd.
      * rewrite Hd. exact IH.
Qed.

Lemma before_without (c : ascii) (s : string) :
  occurs c s = false -> before c s = s.
Proof.
  induction s as [| d s IH]; cbn [occurs before]; intros H.
  - reflexivity.
  - apply orb_false_iff in H. destruct H as [Hd Hs].
    now rewrite Hd, (IH Hs).
Qed.

Lemma after_skips (c : ascii) (a b : string) :
  occurs c a = false -> after c (a ++ b) = after c b.
Proof.
  induction a as [| d a IH]; cbn [occurs after String.append]; intros H.
  - reflexivity.
  - apply orb_false_iff in H. destruct H as [Hd Ha].
    now rewrite Hd, (IH Ha).
Qed.

Lemma occurs_join (c : ascii) (sep : string) (items : list string) :
  occurs c sep = false ->
  forallb (fun item => negb (occurs c item)) items = true ->
  occurs c (join sep items) = false.
Proof.
  intros Hsep. induction items as [| x rest IH]; intros H.
  - reflexivity.
  - cbn [forallb] in H. apply andb_true_iff in H. destruct H as [Hx Hrest].
    apply negb_true_iff in Hx.
    destruct rest as [| y rest'].
    + exact Hx.
    + change (join sep (x :: y :: rest')) with (x ++ sep ++ join sep (y :: rest')).
      rewrite !occurs_append, Hx, Hsep, (IH Hrest). reflexivity.
Qed.

Lemma segment_parameters_without (c : ascii) (pieces : list string) :
  occurs c "segment=" = false ->
  forallb (fun piece => negb (occurs c piece)) pieces = true ->
  forallb (fun parameter => negb (occurs c parameter))
          (map (String.append "segment=") pieces) = true.
Proof.
  intros Hname Hpieces.
  rewrite forallb_forall in Hpieces. apply forallb_forall.
  intros parameter Hin. apply in_map_iff in Hin.
  destruct Hin as [piece [<- Hin]].
  rewrite occurs_append, Hname. cbn [orb].
  exact (Hpieces piece Hin).
Qed.

Lemma query_plain_pieces (pieces : list string) :
  forallb query_plain pieces = true ->
  forallb (fun piece => negb (occurs "&" piece)) pieces = true
  /\ forallb (fun piece => negb (occurs "#" piece)) pieces = true.
Proof.
  intros H. rewrite forallb_forall in H.
  split; apply forallb_forall; intros piece Hin;
    specialize (H piece Hin); unfold query_plain in H;
    apply andb_true_iff in H; tauto.
Qed.

Lemma segment_query_parameters (host : string) (pieces : list string) :
  pieces <> [] ->
  occurs "?" host = false ->
  occurs "#" host = false ->
  forallb query_plain pieces = true ->
  query_parameters
    (host ++ "/api/directory?"
     ++ join "&" (map (String.append "segment=") pieces))
  = map (String.append "segment=") pieces.
Proof.
  intros Hne Hquestion Hhash Hplain.
  destruct (query_plain_pieces pieces Hplain) as [Hamp Hfragment].
  unfold query_parameters, url_query.
  rewrite before_without.
  - rewrite (after_skips "?" host _ Hquestion).
    cbn [String.append after Ascii.eqb Bool.eqb].
    apply split_joined.
    + destruct pieces; [congruence | discriminate].
    + now apply segment_parameters_without.
  - rewrite !occurs_append, Hhash.
    change (occurs "#" "/api/directory?") with false. cbn [orb].
    apply occurs_join; [reflexivity |].
    now apply segment_parameters_without.
Qed.

Lemma session_host_is_plain T adapter (NODE_ENV : option string)
    (config : DeltaStorageConfig) (events : list event) :
  let w := run T adapter events (constructor NODE_ENV config) in
  occurs "?" (host (this w)) = false /\ occurs "#" (host (this w)) = false.
Proof.
  cbv zeta. rewrite run_this. unfold constructor. cbn [this host].
  destruct NODE_ENV as [env |]; [| split; reflexivity].
  destruct (String.eqb env "development"); split; reflexivity.
Qed.

Lemma segments_plain_pieces (segments : string) :
  occurs "&" segments = false ->
  occurs "#" segments = false ->
  forallb query_plain (split "/" segments) = true.
Proof.
  intros Hamp Hfragment.
  pose proof (pieces_without "&" "/" segments Hamp) as H1.
  pose proof (pieces_without "#" "/" segments Hfragment) as H2.
  rewrite forallb_forall in H1, H2. apply forallb_forall.
  intros piece Hin. unfold query_plain.
  now rewrite (H1 piece Hin), (H2 piece Hin).
Qed.

(** C6 (as amended): on every session, for a path made of components that
    are not empty and hold no [/], no [&] and no [#], joined by [/],
    [readDirectoryBySegment] (once past the gate) sends one GET whose
    query string (what the URL holds between its [?] and a fragment), cut
    at each [&], is [segment=c] for each component [c], one apiece and in
    the order of the path: nothing before the first component's parameter,
    nothing after the last one's. The components are copied as they are,
    without encoding. *)
Theorem readDirectoryBySegment_parameters T adapter (NODE_ENV : option string)
    (config : DeltaStorageConfig) (events : list event)
    (first : string) (others : list string) :
  let w := run T adapter events (constructor NODE_ENV config) in
  forallb component (first :: others) = true ->
  forallb query_plain (first :: others) = true ->
  isCommandAllowed (scope (this w)) (READ_DIRECTORY T) = true ->
  exists req,
    Index.readDirectoryBySegment T adapter (join "/" (first :: others)) w
    = (sent req w, adapter (network w) req)
    /\ method req = GET
    /\ url req
       = host (this w) ++ "/api/directory?"
         ++ join "&" (map (String.append "segment=") (first :: others))
    /\ query_parameters (url req)
       = map (String.append "segment=") (first :: others).
Proof.
  intros w Hcomponents Hplain Hallowed.
  rewrite (readDirectoryBySegment_url T adapter w first others Hcomponents
             Hallowed).
  cbv zeta. eexists. split; [reflexivity | split; [reflexivity | split]].
  - reflexivity.
  - cbn [url].
    destruct (session_host_is_plain T adapter NODE_ENV config events)
      as [Hquestion Hhash].
    apply segment_query_parameters;
      [discriminate | exact Hquestion | exact Hhash | exact Hplain].
Qed.

Lemma readDirectoryBySegment_parameters_witness :
  exists req,
    Index.readDirectoryBySegment sample_scope (sample_adapter JNull) "a/b/c"
      (sample_client "k.8.u.h.e")
    = (sent req (sample_client "k.8.u.h.e"), sample_adapter JNull [] req)
    /\ method req = GET
    /\ url req
       = "https://api.delta.storage/api/directory?segment=a&segment=b&segment=c"
    /\ query_parameters (url req) = ["segment=a"; "segment=b"; "segment=c"].
Proof.
  apply (readDirectoryBySegment_parameters sample_scope (sample_adapter JNull)
           None {| config_apiKey := "k.8.u.h.e" |} [] "a" ["b"; "c"]);
    reflexivity.
Defined.

(** C6 (as stated) fails on a component that holds an [&]: the two
    components [x&segment=y] and [z], neither empty nor holding a [/], are
    sent as the three parameters [segment=x], [segment=y], [segment=z], the
    very request of the three components [x], [y], [z]. *)
Lemma ampersand_component_adds_a_parameter :
  forallb component ["x&segment=y"; "z"] = true
  /\ Index.readDirectoryBySegment sample_scope (sample_adapter JNull)
       (join "/" ["x&segment=y"; "z"]) (sample_client "k.8.u.h.e")
     = Index.readDirectoryBySegment sample_scope (sample_adapter JNull)
         (join "/" ["x"; "y"; "z"]) (sample_client "k.8.u.h.e")
  /\ map url
       (issued (sample_client "k.8.u.h.e")
          (fst (Index.readDirectoryBySegment sample_scope (sample_adapter JNull)
                  (join "/" ["x&segment=y"; "z"]) (sample_client "k.8.u.h.e"))))
     = ["https://api.delta.storage/api/directory?segment=x&segment=y&segment=z"]
  /\ query_parameters
       "https://api.delta.storage/api/directory?segment=x&segment=y&segment=z"
     = ["segment=x"; "segment=y"; "segment=z"].
Proof. repeat split. Qed.

Lemma issued_segments_request T adapter (NODE_ENV : option string)
    (config : DeltaStorageConfig) (events : list event) (segments : string) :
  let w := run T adapter events (constructor NODE_ENV config) in
  occurs "&" segments = false ->
  occurs "#" segments = false ->
  isCommandAllowed (scope (this w)) (READ_DIRECTORY T) = true ->
  exists req,
    issued w (fst (Index.readDirectoryBySegment T adapter segments w)) = [req]
    /\ method req = GET
    /\ query_parameters (url req)
       = map (String.append "segment=") (split "/" segments).
Proof.
  intros w Hamp Hfragment Hallowed.
  destruct (readDirectoryBySegment_pieces T adapter w segments Hallowed)
    as [req [Hrun [Hget [Hurl _]]]].
  exists req. split; [| split].
  - rewrite Hrun. apply issued_one.
  - exact Hget.
  - rewrite Hurl.
    destruct (session_host_is_plain T adapter NODE_ENV config events)
      as [Hquestion Hhash].
    apply segment_query_parameters;
      [apply split_nonempty | exact Hquestion | exact Hhash |].
    now apply segments_plain_pieces.
Qed.

(** X7: on every session, for every path without [&] and [#],
    [readDirectoryBySegment] (once past the gate) sends one GET whose
    query string holds one parameter per piece between slashes, empty
    pieces included: as many parameters as the path has slashes, plus one,
    and an empty parameter [segment=] exactly when a piece is empty (the
    empty path, a leading, trailing or doubled slash). *)
Theorem segment_parameters_count T adapter (NODE_ENV : option string)
    (config : DeltaStorageConfig) (events : list event) (segments : string) :
  let w := run T adapter events (constructor NODE_ENV config) in
  occurs "&" segments = false ->
  occurs "#" segments = false ->
  isCommandAllowed (scope (this w)) (READ_DIRECTORY T) = true ->
  exists req,
    issued w (fst (Index.readDirectoryBySegment T adapter segments w)) = [req]
    /\ method req = GET
    /\ List.length (query_parameters (url req)) = S (count_char "/" segments)
    /\ (In "segment=" (query_parameters (url req))
        <-> In EmptyString (split "/" segments)).
Proof.
  intros w Hamp Hfragment Hallowed.
  destruct (issued_segments_request T adapter NODE_ENV config events segments
              Hamp Hfragment Hallowed) as [req [Hissued [Hget Hparameters]]].
  exists req. split; [exact Hissued | split; [exact Hget | split]].
  - rewrite Hparameters, length_map. apply split_length.
  - rewrite Hparameters, in_map_iff. split.
    + intros [piece [Heq Hin]].
      destruct piece as [| c piece]; [exact Hin | discriminate].
    + intros Hin. exists EmptyString. split; [reflexivity | exact Hin].
Qed.

Lemma segment_parameters_count_witness :
  exists req,
    issued (sample_client "k.8.u.h.e")
      (fst (Index.readDirectoryBySegment sample_scope (sample_adapter JNull)
              "/a//" (sample_client "k.8.u.h.e")))
    = [req]
    /\ method req = GET
    /\ List.length (query_parameters (url req)) = 4%nat
    /\ (In "segment=" (query_parameters (url req))
        <-> In EmptyString (split "/" "/a//")).
Proof.
  apply (segment_parameters_count sample_scope (sample_adapter JNull) None
           {| config_apiKey := "k.8.u.h.e" |} [] "/a//"); reflexivity.
Defined.

(** X19: on every session, for a path without [&] and [#], the query
    string of the URL [readDirectoryBySegment] sends (what the URL holds
    between its [?] and a fragment), cut at each [&], is exactly one
    [segment=piece] for each piece of the path between slashes, in the
    order of the path. *)
Theorem query_parameters_read_back T adapter (NODE_ENV : option string)
    (config : DeltaStorageConfig) (events : list event) (segments : string) :
  let w := run T adapter events (constructor NODE_ENV config) in
  occurs "&" segments = false ->
  occurs "#" segments = false ->
  isCommandAllowed (scope (this w)) (READ_DIRECTORY T) = true ->
  exists req,
    issued w (fst (Index.readDirectoryBySegment T adapter segments w)) = [req]
    /\ query_parameters (url req)
       = map (String.append "segment=") (split "/" segments).
Proof.
  intros w Hamp Hfragment Hallowed.
  destruct (issued_segments_request T adapter NODE_ENV config events segments
              Hamp Hfragment Hallowed) as [req [Hissued [_ Hparameters]]].
  exists req. split; assumption.
Qed.

Lemma query_parameters_read_back_witness :
  exists req,
    issued (sample_client "k.8.u.h.e")
      (fst (Index.readDirectoryBySegment sample_scope (sample_adapter JNull)
              "docs/2024/q=1" (sample_client "k.8.u.h.e")))
    = [req]
    /\ query_parameters (url req)
       = ["segment=docs"; "segment=2024"; "segment=q=1"].
Proof.
  apply (query_parameters_read_back sample_scope (sample_adapter JNull) None
           {| config_apiKey := "k.8.u.h.e" |} [] "docs/2024/q=1"); reflexivity.
Defined.

(** ** Other scopes that allow everything *)

Lemma gate_full_scope (s f : Z) :
  (forall i, 0 <= i < 31 -> Z.testbit s i = true) ->
  0 <= f < 2 ^ 31 ->
  isCommandAllowed (Num s) (Num f) = true.
Proof.
  intros Hfull Hf.
  assert (Hs : s <> 0).
  { intros ->. specialize (Hfull 0 ltac:(lia)).
    rewrite Z.bits_0 in Hfull. discriminate. }
  apply isCommandAllowed_integer_scope; [assumption .. |].
  intros i Hi. cbn [bit_set] in *.
  destruct (Z.ltb_spec i 0) as [Hneg | Hpos].
  - now rewrite Z.testbit_neg_r in Hi.
  - destruct (Z.ltb_spec i 31) as [Hlow | Hhigh].
    + apply Hfull. lia.
    + now rewrite (testbit_above f i 31) in Hi by lia.
Qed.

(** X20: 0 is not the only scope that lets everything through: with
    capability masks below 2^31, a session whose scope has its 31 low bits
    set (2147483647, or -1 from the key field [-1]) passes the gate of
    every operation, the composite ones included. *)
Theorem full_scopes_allow_everything T (w : World) (c : scoped_call) (s : Z) :
  small_masks T = true ->
  scope (this w) = Num s ->
  (forall i, 0 <= i < 31 -> Z.testbit s i = true) ->
  passes T w c = true.
Proof.
  intros Hsmall Hscope Hfull.
  pose proof Hsmall as Hall.
  unfold small_masks, capabilities in Hall. cbn [forallb] in Hall.
  repeat (apply andb_true_iff in Hall; destruct Hall as [? Hall]).
  destruct (small_masks_inv T Hsmall)
    as [rf [uf [df [rd [cd [dd [-> [Hu [Hd [Hc Hdd]]]]]]]]]].
  cbn [READ_FILE UPLOAD_FILE DELETE_FILE READ_DIRECTORY CREATE_DIRECTORY
       DELETE_DIRECTORY] in *.
  unfold passes. rewrite Hscope.
  assert (Hone : forall z, small_mask (Num z) = true ->
                 isCommandAllowed (Num s) (Num z) = true).
  { intros z Hz. apply gate_full_scope; [assumption |].
    unfold small_mask in Hz.
    apply andb_true_iff in Hz. destruct Hz as [Hlo Hhi].
    apply Z.leb_le in Hlo. apply Z.ltb_lt in Hhi. lia. }
  destruct c;
    cbn [required_mask READ_FILE UPLOAD_FILE DELETE_FILE READ_DIRECTORY
         CREATE_DIRECTORY DELETE_DIRECTORY];
    try (now apply Hone);
    rewrite gate_on_pair by assumption;
    rewrite !(gate_full_scope s) by assumption; reflexivity.
Qed.

Lemma full_scopes_allow_everything_witness :
  scope (this (sample_client "k.-1.u.h.e")) = Num (-1)
  /\ passes sample_scope (sample_client "k.-1.u.h.e") (Index_move "p" [] None)
     = true.
Proof.
  split; [reflexivity |].
  apply (full_scopes_allow_everything sample_scope (sample_client "k.-1.u.h.e")
           (Index_move "p" [] None) (-1)).
  - reflexivity.
  - reflexivity.
  - intros i Hi. apply Z.bits_m1. lia.
Defined.
